(** * Result-shape analysis and the live query channel

    A shallow embedding of the two pieces of logic of the text-to-SQL web
    client: the [analysisResult] computation of the [ResultsVisualizer]
    component, and the [useWebSocket] hook.

    The file has three parts:
    - [JS]: the fragment of the JavaScript value semantics the two
      programs rely on (scalars, coercions, plain objects);
    - [ResultsVisualizer]: the chart selector;
    - [LiveChannel]: the reconnecting WebSocket hook as a state machine.

    Then come the properties of the selector and of the channel.

    Strings are sequences of 8-bit characters, so the white space
    [Number] skips is the ASCII one.  A result set is a list of rows and a
    row is a plain object holding scalars, as [JSON.parse] returns them. *)

From Stdlib Require Import ZArith QArith List String Ascii Bool Lia.
From Stdlib Require Import DecimalString Qcanon Permutation.
From stdpp Require Import base list.
Import ListNotations.

Local Open Scope string_scope.
Local Open Scope Z_scope.

(** ** JavaScript values *)

Module JS.

(** A Number is NaN, an infinity, or a finite value.  Finite values are
    exact rationals: rounding to binary64, overflow and the sign of zero
    are outside the model. *)
Inductive number : Type :=
| NaN
| Infinity (negative : bool)
| Fin (q : Q).

(** The scalars a row of a result set can hold; [VUndefined] is what
    reading an absent key gives. *)
Inductive value : Type :=
| VUndefined
| VNull
| VBool (b : bool)
| VNum (n : number)
| VStr (s : string).

Definition num_of_Z (z : Z) : number := Fin (inject_Z z).

Definition isNaN (n : number) : bool :=
  match n with NaN => true | _ => false end.

Definition isFinite (n : number) : bool :=
  match n with Fin _ => true | _ => false end.

(** *** Arithmetic *)

Definition num_add (a b : number) : number :=
  match a, b with
  | NaN, _ | _, NaN => NaN
  | Infinity s, Infinity t => if Bool.eqb s t then Infinity s else NaN
  | Infinity s, Fin _ | Fin _, Infinity s => Infinity s
  | Fin x, Fin y => Fin (Qred (x + y))
  end.

Definition Qneg (q : Q) : bool := (Qnum q <? 0)%Z.
Definition Qzero (q : Q) : bool := (Qnum q =? 0)%Z.

Definition num_div (a b : number) : number :=
  match a, b with
  | NaN, _ | _, NaN => NaN
  | Infinity _, Infinity _ => NaN
  | Infinity s, Fin y => Infinity (xorb s (Qneg y))
  | Fin _, Infinity _ => Fin 0
  | Fin x, Fin y =>
      if Qzero y then (if Qzero x then NaN else Infinity (Qneg x))
      else Fin (Qred (x / y))
  end.

(** [Math.min] on finite values *)
Definition Math_min (a b : Q) : Q := if Qle_bool a b then a else b.

(** *** StringToNumber *)

Definition code (c : ascii) : Z := Z.of_nat (nat_of_ascii c).

Definition is_white_space (c : ascii) : bool :=
  ((9 <=? code c) && (code c <=? 13)) || (code c =? 32).

Definition dec_digit (c : ascii) : option Z :=
  if (48 <=? code c) && (code c <=? 57) then Some (code c - 48) else None.

Definition bin_digit (c : ascii) : option Z :=
  if (48 <=? code c) && (code c <=? 49) then Some (code c - 48) else None.

Definition oct_digit (c : ascii) : option Z :=
  if (48 <=? code c) && (code c <=? 55) then Some (code c - 48) else None.

Definition hex_digit (c : ascii) : option Z :=
  if (48 <=? code c) && (code c <=? 57) then Some (code c - 48)
  else if (97 <=? code c) && (code c <=? 102) then Some (code c - 87)
  else if (65 <=? code c) && (code c <=? 70) then Some (code c - 55)
  else None.

(** Reads the longest prefix of digits: its value on top of [acc], how
    many digits were read, and the rest. *)
Fixpoint span_digits (digit : ascii -> option Z) (radix acc : Z) (cnt : nat)
    (s : list ascii) : Z * nat * list ascii :=
  match s with
  | c :: s' =>
      match digit c with
      | Some d => span_digits digit radix (acc * radix + d) (S cnt) s'
      | None => (acc, cnt, s)
      end
  | [] => (acc, cnt, [])
  end.

Definition trim (s : list ascii) : list ascii :=
  let skip := fix skip (l : list ascii) : list ascii :=
    match l with
    | c :: l' => if is_white_space c then skip l' else l
    | [] => []
    end in
  rev (skip (rev (skip s))).

(** [m * 10^e] as a reduced rational. *)
Definition scale10 (m e : Z) : Q :=
  if 0 <=? e then inject_Z (m * 10 ^ e)
  else Qred (Qmake m (Z.to_pos (10 ^ (- e)))).

(** ExponentPart, or nothing: [Some 0] on the empty rest, [None] when the
    rest is not an exponent. *)
Definition parse_exponent (s : list ascii) : option Z :=
  match s with
  | [] => Some 0
  | c :: s' =>
      if (code c =? 101) || (code c =? 69) then
        let '(neg, s'') :=
          match s' with
          | d :: r => if code d =? 45 then (true, r)
                      else if code d =? 43 then (false, r) else (false, s')
          | [] => (false, s')
          end in
        match span_digits dec_digit 10 0 0 s'' with
        | (_, O, _) => None
        | (e, S _, []) => Some (if neg then - e else e)
        | (_, S _, _ :: _) => None
        end
      else None
  end.

(** StrUnsignedDecimalLiteral without the [Infinity] case. *)
Definition parse_unsigned_decimal (s : list ascii) : option Q :=
  let '(ip, ni, r1) := span_digits dec_digit 10 0 0 s in
  let '(m, nf, r2) :=
    match r1 with
    | c :: r => if code c =? 46 then span_digits dec_digit 10 ip 0 r
                else (ip, O, r1)
    | [] => (ip, O, r1)
    end in
  match ni, nf with
  | O, O => None
  | _, _ =>
      match parse_exponent r2 with
      | Some e => Some (scale10 m (e - Z.of_nat nf))
      | None => None
      end
  end.

Definition infinity_literal : list ascii := list_ascii_of_string "Infinity".

Definition list_ascii_eqb (a b : list ascii) : bool :=
  String.eqb (string_of_list_ascii a) (string_of_list_ascii b).

Definition parse_str_decimal (s : list ascii) : number :=
  let '(neg, u) :=
    match s with
    | c :: r => if code c =? 45 then (true, r)
                else if code c =? 43 then (false, r) else (false, s)
    | [] => (false, s)
    end in
  if list_ascii_eqb u infinity_literal then Infinity neg
  else match parse_unsigned_decimal u with
       | Some q => Fin (if neg then Qred (- q) else q)
       | None => NaN
       end.

Definition parse_radix (digit : ascii -> option Z) (radix : Z)
    (s : list ascii) : number :=
  match span_digits digit radix 0 0 s with
  | (v, S _, []) => num_of_Z v
  | _ => NaN
  end.

Definition string_to_number (str : string) : number :=
  match trim (list_ascii_of_string str) with
  | [] => num_of_Z 0
  | (z :: p :: r) as s =>
      if code z =? 48 then
        if (code p =? 120) || (code p =? 88) then parse_radix hex_digit 16 r
        else if (code p =? 111) || (code p =? 79) then parse_radix oct_digit 8 r
        else if (code p =? 98) || (code p =? 66) then parse_radix bin_digit 2 r
        else parse_str_decimal s
      else parse_str_decimal s
  | s => parse_str_decimal s
  end.

(** [Number(v)] *)
Definition Number (v : value) : number :=
  match v with
  | VUndefined => NaN
  | VNull => num_of_Z 0
  | VBool b => num_of_Z (if b then 1 else 0)
  | VNum n => n
  | VStr s => string_to_number s
  end.

(** *** Number::toString

    The digits [s], their count [k] and the decimal exponent [n] with
    [s * 10^(n-k)] the value, as the language specification has them,
    read off the rational after rounding it to 17 significant digits
    (a binary64 value never needs more). *)

Definition digits_of (z : Z) : string :=
  NilEmpty.string_of_uint (N.to_uint (Z.to_N z)).

Definition num_digits (z : Z) : Z := Z.of_nat (String.length (digits_of z)).

Fixpoint strip_zeros (fuel : nat) (s k : Z) : Z * Z :=
  match fuel with
  | O => (s, k)
  | S fuel' =>
      if (s mod 10 =? 0) && (1 <? k) then strip_zeros fuel' (s / 10) (k - 1)
      else (s, k)
  end.

Fixpoint zeros (n : nat) : string :=
  match n with O => EmptyString | S n' => String "0" (zeros n') end.

Definition prefix (n : Z) (s : string) : string :=
  substring 0 (Z.to_nat n) s.
Definition suffix (n : Z) (s : string) : string :=
  substring (Z.to_nat n) (String.length s - Z.to_nat n) s.

(** [a / b] with [0 < a] and [0 < b]. *)
Definition positive_to_string (a b : Z) : string :=
  let d := num_digits a - num_digits b in
  let below := if 0 <=? d then a <? b * 10 ^ d else a * 10 ^ (- d) <? b in
  let n := if below then d else d + 1 in
  let p := 17 - n in
  let '(num, den) := if 0 <=? p then (a * 10 ^ p, b) else (a, b * 10 ^ (- p)) in
  let s17 := (2 * num + den) / (2 * den) in
  let '(s17, n) := if 10 ^ 17 <=? s17 then (s17 / 10, n + 1) else (s17, n) in
  let '(s, k) := strip_zeros 17 s17 17 in
  let ds := digits_of s in
  if (k <=? n) && (n <=? 21) then ds ++ zeros (Z.to_nat (n - k))
  else if (0 <? n) && (n <=? 21) then prefix n ds ++ "." ++ suffix n ds
  else if (-6 <? n) && (n <=? 0) then "0." ++ zeros (Z.to_nat (- n)) ++ ds
  else
    let e := n - 1 in
    let exp := "e" ++ (if e <? 0 then "-" else "+") ++ digits_of (Z.abs e) in
    if k =? 1 then ds ++ exp else prefix 1 ds ++ "." ++ suffix 1 ds ++ exp.

Definition number_to_string (x : number) : string :=
  match x with
  | NaN => "NaN"
  | Infinity false => "Infinity"
  | Infinity true => "-Infinity"
  | Fin q =>
      let a := Qnum q in
      let b := Zpos (Qden q) in
      if a =? 0 then "0"
      else if a <? 0 then "-" ++ positive_to_string (- a) b
      else positive_to_string a b
  end.

(** [String(v)], also the property key [v] stands for. *)
Definition to_string (v : value) : string :=
  match v with
  | VUndefined => "undefined"
  | VNull => "null"
  | VBool true => "true"
  | VBool false => "false"
  | VNum n => number_to_string n
  | VStr s => s
  end.

(** *** Operators *)

(** ToBoolean *)
Definition truthy (v : value) : bool :=
  match v with
  | VUndefined | VNull => false
  | VBool b => b
  | VNum NaN => false
  | VNum (Infinity _) => true
  | VNum (Fin q) => negb (Qzero q)
  | VStr s => negb (String.eqb s "")
  end.

(** [a || b] *)
Definition or_else (a b : value) : value := if truthy a then a else b.

(** [a + b] *)
Definition plus (a b : value) : value :=
  match a, b with
  | VStr _, _ | _, VStr _ => VStr (to_string a ++ to_string b)
  | _, _ => VNum (num_add (Number a) (Number b))
  end.

(** [a / b] *)
Definition divide (a b : value) : value :=
  VNum (num_div (Number a) (Number b)).

(** SameValueZero, the equality of [Set]. *)
Definition same_value_zero (a b : value) : bool :=
  match a, b with
  | VUndefined, VUndefined | VNull, VNull => true
  | VBool x, VBool y => Bool.eqb x y
  | VNum NaN, VNum NaN => true
  | VNum (Infinity s), VNum (Infinity t) => Bool.eqb s t
  | VNum (Fin x), VNum (Fin y) => Qeq_bool x y
  | VStr x, VStr y => String.eqb x y
  | _, _ => false
  end.

(** [new Set(l)]: the elements in insertion order, one per value. *)
Fixpoint new_Set (l : list value) : list value :=
  match l with
  | [] => []
  | v :: l' =>
      v :: List.filter (fun w => negb (same_value_zero v w)) (new_Set l')
  end.

(** *** Plain objects

    The own properties of an object in creation order: [get] finds a
    key only when it was written.  What a lookup finds on
    [Object.prototype] when there is no own property is given by
    [Object_prototype] below. *)

Definition object (V : Type) : Type := list (string * V).

Section Objects.
Context {V : Type}.

(** [o[k]], [None] for undefined *)
Fixpoint get (o : object V) (k : string) : option V :=
  match o with
  | [] => None
  | (k', v) :: o' => if String.eqb k' k then Some v else get o' k
  end.

(** [o[k] = v]: an existing property keeps its place *)
Fixpoint set (o : object V) (k : string) (v : V) : object V :=
  match o with
  | [] => [(k, v)]
  | (k', v') :: o' =>
      if String.eqb k' k then (k, v) :: o' else (k', v') :: set o' k v
  end.

(** A canonical numeric string below [2^32 - 1] is an array index. *)
Definition array_index (k : string) : option Z :=
  match list_ascii_of_string k with
  | [] => None
  | (c :: r) as cs =>
      if (code c =? 48) && negb (Nat.eqb (List.length r) 0) then None
      else match span_digits dec_digit 10 0 0 cs with
           | (i, _, []) => if i <? 2 ^ 32 - 1 then Some i else None
           | _ => None
           end
  end.

Fixpoint insert_sorted (i : Z) (p : string * V)
    (l : list (Z * (string * V))) : list (Z * (string * V)) :=
  match l with
  | [] => [(i, p)]
  | (j, q) :: l' =>
      if i <? j then (i, p) :: l else (j, q) :: insert_sorted i p l'
  end.

Fixpoint split_index (o : object V)
    : list (Z * (string * V)) * list (string * V) :=
  match o with
  | [] => ([], [])
  | (k, v) :: o' =>
      let '(ix, rest) := split_index o' in
      match array_index k with
      | Some i => (insert_sorted i (k, v) ix, rest)
      | None => (ix, (k, v) :: rest)
      end
  end.

(** The order of [Object.keys], [Object.values] and [Object.entries]:
    array indices ascending, then the other keys in creation order. *)
Definition entries (o : object V) : list (string * V) :=
  let '(ix, rest) := split_index o in (map snd ix ++ rest)%list.

Definition keys (o : object V) : list string := map fst (entries o).
Definition values (o : object V) : list V := map snd (entries o).
End Objects.

(** *** [Object.prototype]

    What a plain object inherits.  On an object without own property
    [k], [o[k]] reads the member of [Object.prototype] of that name: one
    of its eleven methods, [constructor] being the function [Object], or
    the accessor [__proto__], which reads as [Object.prototype] itself
    and whose setter ignores a value that is no object.  Every member is
    truthy. *)
Inductive Inherited : Type :=
| Method (name : string)
| Proto.

Definition Object_prototype (k : string) : option Inherited :=
  if String.eqb k "constructor" then Some (Method "Object")
  else if existsb (String.eqb k)
            ["hasOwnProperty"; "isPrototypeOf"; "propertyIsEnumerable";
             "toLocaleString"; "toString"; "valueOf"; "__defineGetter__";
             "__defineSetter__"; "__lookupGetter__"; "__lookupSetter__"]
  then Some (Method k)
  else if String.eqb k "__proto__" then Some Proto
  else None.

(** The text a built-in function converts to.  Its layout is the
    engine's: this is the one of V8. *)
Definition native_code (name : string) : string :=
  "function " ++ name ++ "() { [native code] }".

(** *** [JSON.stringify] on scalars

    [QuoteJSONString]: the two delimiters, a backslash before a quote or
    a backslash, the short escapes of the control characters that have
    one, and the four-digit escape of the others. *)

Definition dquote : ascii := ascii_of_nat 34.
Definition backslash : ascii := ascii_of_nat 92.

Definition hex_char (d : Z) : ascii :=
  ascii_of_nat (Z.to_nat (if d <? 10 then 48 + d else 87 + d)).

Definition quote_char (c : ascii) : string :=
  if code c =? 8 then String backslash "b"
  else if code c =? 9 then String backslash "t"
  else if code c =? 10 then String backslash "n"
  else if code c =? 12 then String backslash "f"
  else if code c =? 13 then String backslash "r"
  else if code c =? 34 then String backslash (String dquote "")
  else if code c =? 92 then String backslash (String backslash "")
  else if code c <? 32 then
    String backslash
      ("u00" ++ String (hex_char (code c / 16))
                  (String (hex_char (code c mod 16)) ""))
  else String c "".

Fixpoint quote_chars (s : string) : string :=
  match s with
  | EmptyString => ""
  | String c s' => quote_char c ++ quote_chars s'
  end.

Definition QuoteJSONString (s : string) : string :=
  String dquote (quote_chars s ++ String dquote "").

(** [None] is undefined. *)
Definition JSON_stringify (v : value) : option string :=
  match v with
  | VUndefined => None
  | VNull => Some "null"
  | VBool true => Some "true"
  | VBool false => Some "false"
  | VNum (Fin q) => Some (number_to_string (Fin q))
  | VNum _ => Some "null"
  | VStr s => Some (QuoteJSONString s)
  end.

(** [s.trim()] *)
Definition String_trim (s : string) : string :=
  string_of_list_ascii (trim (list_ascii_of_string s)).

End JS.

(** ** The chart selector: [analysisResult] of [ResultsVisualizer] *)

Module ResultsVisualizer.
Import JS.

(** A row of the result set, and the points handed to the chart. *)
Definition Row : Type := object value.

Record Analysis : Type := {
  chartType : string;
  chartData : list (object value);
  numericColumns : list string;
  categoricalColumns : list string;
}.

(** [row[col]], read on the own properties of the row.  A row that lacks
    a column named after a member of [Object.prototype] would read that
    member instead of [undefined]: such rows are not among those
    modelled. *)
Definition prop (row : object value) (col : string) : value :=
  match get row col with Some v => v | None => VUndefined end.

(** [cols[i]] used as a property key: out of range it is [undefined]. *)
Definition at_index (cols : list string) (i : nat) : string :=
  match nth_error cols i with Some c => c | None => to_string VUndefined end.

Definition len {A} (l : list A) : Z := Z.of_nat (List.length l).

(** [val !== null && val !== undefined && !isNaN(Number(val))] *)
Definition numeric_value (val : value) : bool :=
  match val with
  | VNull | VUndefined => false
  | _ => negb (isNaN (Number val))
  end.

(** [data.slice(0, 10).map(row => row[col])] *)
Definition sampleValues (data : list Row) (col : string) : list value :=
  map (fun row => prop row col) (firstn 10 data).

Definition is_numeric (data : list Row) (col : string) : bool :=
  forallb numeric_value (sampleValues data col).

(** [size <= Math.min(20, data.length * 0.8) && size > 1].  The product is
    taken exactly; in binary64 the comparison with an integer comes out
    the same, the rounded product of a multiple of five being the exact
    integer. *)
Definition is_categorical (data : list Row) (col : string) : bool :=
  let uniqueValues := new_Set (map (fun row => prop row col) data) in
  Qle_bool (inject_Z (len uniqueValues))
           (Math_min (inject_Z 20) (inject_Z (len data) * (8 # 10)))
  && (1 <? len uniqueValues).

(** [Number(v) || 0] *)
Definition number_or_zero (v : value) : value :=
  or_else (VNum (Number v)) (VNum (num_of_Z 0)).

(** The [reduce] of the bar branch: one accumulator object per key.  A
    key that names a member of [Object.prototype] finds that member at
    [acc[key]], and the member is truthy: no group is made for the key,
    and the two [+=] are applied to the member, not to [acc]. *)
Definition aggregate (categoryCol numericCol : string)
    (acc : object (object value)) (row : Row) : object (object value) :=
  let key := prop row categoryCol in
  match get acc (to_string key), Object_prototype (to_string key) with
  | None, Some _ => acc
  | own, _ =>
      let item :=
        match own with
        | Some item => item
        | None =>
            set (set (set [] "name" key) numericCol (VNum (num_of_Z 0)))
                "count" (VNum (num_of_Z 0))
        end in
      let item :=
        set item numericCol
            (plus (prop item numericCol)
                  (number_or_zero (prop row numericCol))) in
      let item :=
        set item "count" (plus (prop item "count") (VNum (num_of_Z 1))) in
      set acc (to_string key) item
  end.

(** Where a [+=] applied to an inherited member makes the branch throw.
    The code is a module, hence strict, and writing a read-only property
    throws a TypeError there.  A built-in function has the read-only
    properties [name] and [length]; its [caller] and [arguments] throw
    when they are read; [Object] has the read-only property [prototype];
    and once [Object.values] holds a text, the call of it that follows
    the [reduce] throws. *)
Definition member_write_throws (member : Inherited) (numericCol : string)
    : bool :=
  match member with
  | Method name =>
      existsb (String.eqb numericCol)
              ["name"; "length"; "caller"; "arguments"]
      || (String.eqb name "Object"
          && existsb (String.eqb numericCol) ["prototype"; "values"])
  | Proto => false
  end.

Definition aggregate_throws (categoryCol numericCol : string)
    (acc : object (object value)) (row : Row) : bool :=
  let key := prop row categoryCol in
  match get acc (to_string key), Object_prototype (to_string key) with
  | None, Some member => member_write_throws member numericCol
  | _, _ => false
  end.

Fixpoint bar_throws (categoryCol numericCol : string) (data : list Row)
    (acc : object (object value)) : bool :=
  match data with
  | [] => false
  | row :: data' =>
      aggregate_throws categoryCol numericCol acc row
      || bar_throws categoryCol numericCol data'
           (aggregate categoryCol numericCol acc row)
  end.

(** [{...item, [numericCol]: item[numericCol] / item.count}] *)
Definition average (numericCol : string) (item : object value)
    : object value :=
  set (entries item) numericCol
      (divide (prop item numericCol) (prop item "count")).

Definition bar_data (categoryCol numericCol : string) (data : list Row)
    : list (object value) :=
  let aggregated := fold_left (aggregate categoryCol numericCol) data [] in
  map (average numericCol) (values aggregated).

Definition scatter_data (xCol yCol : string) (data : list Row)
    : list (object value) :=
  imap (fun index row =>
          [("x", number_or_zero (prop row xCol));
           ("y", number_or_zero (prop row yCol));
           ("id", VNum (num_of_Z (Z.of_nat index)))]) data.

(** The [reduce] of the pie branch: [acc[key] = (acc[key] || 0) + 1].
    An inherited method is truthy and adds as its text, which becomes an
    own property of [acc].  For [__proto__] the assignment reaches the
    setter, which ignores the text. *)
Definition count (categoryCol : string) (acc : object value) (row : Row)
    : object value :=
  let key := to_string (prop row categoryCol) in
  match get acc key, Object_prototype key with
  | None, Some (Method name) =>
      set acc key (plus (VStr (native_code name)) (VNum (num_of_Z 1)))
  | None, Some Proto => acc
  | _, _ =>
      set acc key (plus (or_else (prop acc key) (VNum (num_of_Z 0)))
                        (VNum (num_of_Z 1)))
  end.

Definition pie_data (categoryCol : string) (data : list Row)
    : list (object value) :=
  let counts := fold_left (count categoryCol) data [] in
  map (fun '(name, value) => [("name", VStr name); ("value", value)])
      (entries counts).

Definition line_data (firstCol numericCol : string) (data : list Row)
    : list (object value) :=
  imap (fun index row =>
          [("index", VNum (num_of_Z (Z.of_nat index)));
           ("value", number_or_zero (prop row numericCol));
           ("name", or_else (prop row firstCol)
                      (VStr ("Row " ++ digits_of (Z.of_nat index + 1))))])
       data.

Definition analysisResult (data : list Row) : Analysis :=
  match data with
  | [] =>
      {| chartType := "none"; chartData := [];
         numericColumns := []; categoricalColumns := [] |}
  | firstRow :: _ =>
      let columns := keys firstRow in
      let numericColumns := List.filter (is_numeric data) columns in
      let categoricalColumns := List.filter (is_categorical data) columns in
      let '(chartType, chartData) :=
        if (1 <=? len numericColumns) && (1 <=? len categoricalColumns) then
          ("bar", bar_data (at_index categoricalColumns 0)
                           (at_index numericColumns 0) data)
        else if 2 <=? len numericColumns then
          ("scatter", scatter_data (at_index numericColumns 0)
                                   (at_index numericColumns 1) data)
        else if (len categoricalColumns =? 1) && (len data <=? 20) then
          ("pie", pie_data (at_index categoricalColumns 0) data)
        else if (1 <=? len numericColumns) && (5 <? len data) then
          ("line", line_data (at_index columns 0)
                             (at_index numericColumns 0) data)
        else ("table", data) in
      {| chartType := chartType; chartData := chartData;
         numericColumns := numericColumns;
         categoricalColumns := categoricalColumns |}
  end.

(** The inputs on which the analysis does not return but throws: these
    are in the bar branch. *)
Definition analysis_throws (data : list Row) : bool :=
  match data with
  | [] => false
  | firstRow :: _ =>
      let columns := keys firstRow in
      let numericColumns := List.filter (is_numeric data) columns in
      let categoricalColumns := List.filter (is_categorical data) columns in
      (1 <=? len numericColumns) && (1 <=? len categoricalColumns)
      && bar_throws (at_index categoricalColumns 0)
                    (at_index numericColumns 0) data []
  end.

Definition COLORS : list string :=
  ["#2196f3"; "#f50057"; "#4caf50"; "#ff9800"; "#9c27b0"; "#00bcd4";
   "#cddc39"; "#795548"].

(** What [renderChart] returns: the chart element with the attributes
    that are computed, or the notice that nothing fits.  An attribute is
    [None] when the expression giving it is undefined. *)
Inductive Chart : Type :=
| BarChart (data : list (object value)) (dataKey fill : option string)
| LineChart (data : list (object value)) (xKey lineKey : string)
    (stroke : option string)
| PieChart (data : list (object value)) (dataKey : string)
    (cells : list (option string))
| ScatterChart (data : list (object value)) (xKey yKey : string)
    (xName yName fill : option string)
| NoVisualization.

Definition renderChart (r : Analysis) : Chart :=
  if String.eqb (chartType r) "bar" then
    BarChart (chartData r) (nth_error (numericColumns r) 0)
             (nth_error COLORS 0)
  else if String.eqb (chartType r) "line" then
    LineChart (chartData r) "index" "value" (nth_error COLORS 0)
  else if String.eqb (chartType r) "pie" then
    PieChart (chartData r) "value"
      (imap (fun index _ =>
               nth_error COLORS (index mod List.length COLORS)%nat)
            (chartData r))
  else if String.eqb (chartType r) "scatter" then
    ScatterChart (chartData r) "x" "y" (nth_error (numericColumns r) 0)
                 (nth_error (numericColumns r) 1) (nth_error COLORS 0)
  else NoVisualization.

(** [getDataInsights]: [None] is [null]. *)
Definition getDataInsights (data : list Row) : option (list string) :=
  match data with
  | [] => None
  | _ =>
      let r := analysisResult data in
      let rows := digits_of (len data) ++ " rows of data" in
      let numeric :=
        digits_of (len (numericColumns r)) ++ " numeric columns" in
      let categorical :=
        digits_of (len (categoricalColumns r)) ++ " categorical columns" in
      Some ([rows]
            ++ (if 0 <? len (numericColumns r) then [numeric] else [])
            ++ (if 0 <? len (categoricalColumns r) then [categorical]
                else []))%list
  end.

(** The conditions of the four branches, read on the classification the
    analysis returns. *)
Definition bar_rule (r : Analysis) : Prop :=
  1 <= len (numericColumns r) /\ 1 <= len (categoricalColumns r).

Definition scatter_rule (r : Analysis) : Prop :=
  2 <= len (numericColumns r).

Definition pie_rule (data : list Row) (r : Analysis) : Prop :=
  len (categoricalColumns r) = 1 /\ len data <= 20.

Definition line_rule (data : list Row) (r : Analysis) : Prop :=
  1 <= len (numericColumns r) /\ 5 < len data.

(** The same conditions stated on the rows.  A column is numeric when each
    of its values among the first ten rows is neither [null] nor
    [undefined] and converts to a number other than [NaN]; it is
    categorical when the number of its distinct values over all the rows
    is above 1, at most 20 and at most 0.8 times the number of rows. *)
Definition numeric_column (data : list Row) (col : string) : Prop :=
  forall row, In row (firstn 10 data) ->
    prop row col <> VNull /\ prop row col <> VUndefined /\
    isNaN (Number (prop row col)) = false.



(** No value of the column names a member of [Object.prototype]. *)
Definition plain_keys (categoryCol : string) (data : list Row) : Prop :=
  Forall (fun row =>
            Object_prototype (to_string (prop row categoryCol)) = None)
         data.


(** Sample result sets. *)
Definition int (z : Z) : value := VNum (num_of_Z z).

Definition payroll : list Row :=
  [ [("dept", VStr "Eng"); ("sal", int 100)];
    [("dept", VStr "Eng"); ("sal", int 200)];
    [("dept", VStr "Sales"); ("sal", int 300)] ].


Definition two_labels : list Row :=
  [ [("c", VStr "a")]; [("c", VStr "b")] ].

Definition unbounded : list Row := [ [("a", VStr "Infinity")] ].

Definition ranks : list Row :=
  [ [("rank", VStr "10"); ("label", VStr "x")];
    [("rank", VStr "9"); ("label", VStr "y")];
    [("rank", VStr "10"); ("label", VStr "z")] ].

Definition readings : list Row :=
  [ [("x", int 1); ("y", int 2)]; [("x", int 3); ("y", int 4)] ].

Definition series : list Row :=
  [ [("t", int 0); ("note", VStr "a")]; [("t", int 1); ("note", VStr "b")];
    [("t", int 2); ("note", VStr "c")]; [("t", int 3); ("note", VStr "d")];
    [("t", int 4); ("note", VStr "e")]; [("t", int 5); ("note", VStr "f")] ].

Definition colours : list Row :=
  [ [("c", VStr "red")]; [("c", VStr "blue")]; [("c", VStr "red")] ].

(** Every count of the pie branch is a whole number of at least 1. *)
Definition counted (o : object value) : Prop :=
  Forall (fun v => exists c, 1 <= c /\ v = int c) (map snd o).

(** The integer a count holds, and the total of the counts of an
    object. *)
Definition count_of (v : value) : Z :=
  match v with VNum (Fin q) => Qnum q | _ => 0 end.

Definition total (o : object value) : Z :=
  fold_right (fun p t => count_of (snd p) + t) 0 o.

End ResultsVisualizer.

(** ** The live channel: the [useWebSocket] hook

    The hook's state and refs, together with the part of the host they
    act on: the sockets constructed so far and the timers set so far.
    Every socket carries the four handlers [connect] installs on it, so a
    socket that is no longer [ws.current] still reaches them. *)

Module LiveChannel.

Inductive ConnectionStatus : Type :=
| Connecting | Connected | Disconnected | Error.

Inductive ReadyState : Type := CONNECTING | OPEN | CLOSING | CLOSED.

(** The JSON text a message event carries. *)
Record MessageEvent : Type := { data : string }.

Record WebSocket : Type := {
  readyState : ReadyState;
  sent : list string;            (* frames handed to [send], oldest first *)
  closeCode : option (option Z); (* the code of the [close] call that
                                    started the closing, if any *)
}.

Inductive TimerState : Type := Pending | Fired | Cleared.

Record Timer : Type := { delay : Z; timerState : TimerState }.

Record State : Type := {
  connectionStatus : ConnectionStatus;
  lastMessage : option MessageEvent;
  ws : option nat;                  (* [ws.current]: an index of [sockets] *)
  reconnectTimeoutRef : option nat; (* an index of [timers]; a handle is
                                       never falsy *)
  reconnectAttempts : Z;
  sockets : list WebSocket;
  timers : list Timer;
  console : list string;
}.

Definition maxReconnectAttempts : Z := 5.

Definition setConnectionStatus (v : ConnectionStatus) (s : State) : State :=
  {| connectionStatus := v; lastMessage := lastMessage s; ws := ws s;
     reconnectTimeoutRef := reconnectTimeoutRef s;
     reconnectAttempts := reconnectAttempts s; sockets := sockets s;
     timers := timers s; console := console s |}.

Definition setLastMessage (v : option MessageEvent) (s : State) : State :=
  {| connectionStatus := connectionStatus s; lastMessage := v; ws := ws s;
     reconnectTimeoutRef := reconnectTimeoutRef s;
     reconnectAttempts := reconnectAttempts s; sockets := sockets s;
     timers := timers s; console := console s |}.

Definition set_ws (v : option nat) (s : State) : State :=
  {| connectionStatus := connectionStatus s; lastMessage := lastMessage s;
     ws := v; reconnectTimeoutRef := reconnectTimeoutRef s;
     reconnectAttempts := reconnectAttempts s; sockets := sockets s;
     timers := timers s; console := console s |}.

Definition set_reconnectTimeoutRef (v : option nat) (s : State) : State :=
  {| connectionStatus := connectionStatus s; lastMessage := lastMessage s;
     ws := ws s; reconnectTimeoutRef := v;
     reconnectAttempts := reconnectAttempts s; sockets := sockets s;
     timers := timers s; console := console s |}.

Definition set_reconnectAttempts (v : Z) (s : State) : State :=
  {| connectionStatus := connectionStatus s; lastMessage := lastMessage s;
     ws := ws s; reconnectTimeoutRef := reconnectTimeoutRef s;
     reconnectAttempts := v; sockets := sockets s;
     timers := timers s; console := console s |}.

Definition set_sockets (v : list WebSocket) (s : State) : State :=
  {| connectionStatus := connectionStatus s; lastMessage := lastMessage s;
     ws := ws s; reconnectTimeoutRef := reconnectTimeoutRef s;
     reconnectAttempts := reconnectAttempts s; sockets := v;
     timers := timers s; console := console s |}.

Definition set_timers (v : list Timer) (s : State) : State :=
  {| connectionStatus := connectionStatus s; lastMessage := lastMessage s;
     ws := ws s; reconnectTimeoutRef := reconnectTimeoutRef s;
     reconnectAttempts := reconnectAttempts s; sockets := sockets s;
     timers := v; console := console s |}.

(** [console.log], [console.warn] and [console.error] *)
Definition console_write (line : string) (s : State) : State :=
  {| connectionStatus := connectionStatus s; lastMessage := lastMessage s;
     ws := ws s; reconnectTimeoutRef := reconnectTimeoutRef s;
     reconnectAttempts := reconnectAttempts s; sockets := sockets s;
     timers := timers s; console := (console s ++ [line])%list |}.

(** *** The host: sockets and timers *)

(** [new WebSocket(wsUrl)] *)
Definition fresh_socket : WebSocket :=
  {| readyState := CONNECTING; sent := []; closeCode := None |}.

Definition new_WebSocket (s : State) : nat * State :=
  (List.length (sockets s), set_sockets (sockets s ++ [fresh_socket])%list s).

Definition is_open (r : option ReadyState) : bool :=
  match r with Some OPEN => true | _ => false end.

(** [ws.current?.readyState] *)
Definition current_readyState (s : State) : option ReadyState :=
  i ← ws s; sock ← sockets s !! i; Some (readyState sock).

(** [socket.send(frame)], called on an open socket only. *)
Definition socket_send (i : nat) (frame : string) (s : State) : State :=
  match sockets s !! i with
  | Some sock =>
      match readyState sock with
      | OPEN =>
          set_sockets
            (<[i := {| readyState := OPEN; sent := (sent sock ++ [frame])%list;
                       closeCode := closeCode sock |}]> (sockets s)) s
      | _ => s
      end
  | None => s
  end.

(** [socket.close(code)]: starts the closing of a socket that is
    connecting or open, and does nothing on one closing or closed. *)
Definition socket_close (i : nat) (code : option Z) (s : State) : State :=
  match sockets s !! i with
  | Some sock =>
      match readyState sock with
      | CONNECTING | OPEN =>
          set_sockets
            (<[i := {| readyState := CLOSING; sent := sent sock;
                       closeCode := Some code |}]> (sockets s)) s
      | CLOSING | CLOSED => s
      end
  | None => s
  end.

(** [setTimeout(callback, delay)]; the callback is always the one of
    [onclose]. *)
Definition setTimeout (d : Z) (s : State) : nat * State :=
  (List.length (timers s),
   set_timers (timers s ++ [{| delay := d; timerState := Pending |}])%list s).

(** [clearTimeout(t)] *)
Definition clearTimeout (t : nat) (s : State) : State :=
  match timers s !! t with
  | Some {| delay := d; timerState := Pending |} =>
      set_timers (<[t := {| delay := d; timerState := Cleared |}]> (timers s)) s
  | _ => s
  end.

(** *** The hook *)

Definition connect (s : State) : State :=
  if is_open (current_readyState s) then s
  else
    let s := setConnectionStatus Connecting s in
    let '(sock, s) := new_WebSocket s in
    set_ws (Some sock) s.

Definition onopen (s : State) : State :=
  let s := setConnectionStatus Connected s in
  let s := set_reconnectAttempts 0 s in
  console_write "WebSocket connected" s.

Definition backoff (attempts : Z) : Z := Z.min (1000 * 2 ^ attempts) 30000.

Definition onclose (code : Z) (s : State) : State :=
  let s := setConnectionStatus Disconnected s in
  let s := console_write "WebSocket disconnected:" s in
  if negb (code =? 1000) && (reconnectAttempts s <? maxReconnectAttempts) then
    let delay := backoff (reconnectAttempts s) in
    let '(t, s) := setTimeout delay s in
    set_reconnectTimeoutRef (Some t) s
  else s.

(** The callback [onclose] hands to [setTimeout]. *)
Definition reconnect_callback (s : State) : State :=
  let s := set_reconnectAttempts (reconnectAttempts s + 1) s in
  connect s.

Definition onerror (s : State) : State :=
  let s := setConnectionStatus Error s in
  console_write "WebSocket error:" s.

Definition onmessage (event : MessageEvent) (s : State) : State :=
  setLastMessage (Some event) s.

(** [message] is the JSON text [JSON.stringify] gives. *)
Definition sendMessage (message : string) (s : State) : State :=
  if is_open (current_readyState s) then
    match ws s with
    | Some sock => socket_send sock message s
    | None => s
    end
  else console_write "WebSocket is not connected" s.

Definition reconnect (s : State) : State :=
  let s := match reconnectTimeoutRef s with
           | Some t => clearTimeout t s
           | None => s
           end in
  let s := set_reconnectAttempts 0 s in
  let s := match ws s with
           | Some sock => socket_close sock None s
           | None => s
           end in
  connect s.

(** The cleanup the effect returns. *)
Definition cleanup (s : State) : State :=
  let s := match reconnectTimeoutRef s with
           | Some t => clearTimeout t s
           | None => s
           end in
  match ws s with
  | Some sock => socket_close sock (Some 1000) s
  | None => s
  end.

Definition initial : State :=
  {| connectionStatus := Disconnected; lastMessage := None; ws := None;
     reconnectTimeoutRef := None; reconnectAttempts := 0; sockets := [];
     timers := []; console := [] |}.

(** The effect: the hook connects when it is mounted. *)
Definition mount : State := connect initial.

(** *** Runs of the hook

    What can happen to a mounted hook: the host delivers an event of a
    socket or fires a timer, or the component calls the hook. *)

Inductive Action : Type :=
| Opened (sock : nat)
| Closing (sock : nat)
| Closed (sock : nat) (code : Z)
| Failed (sock : nat)
| Received (sock : nat) (event : MessageEvent)
| TimedOut (t : nat)
| Send (message : string)
| Reconnect
| Unmount.

Definition set_readyState (i : nat) (r : ReadyState) (s : State) : State :=
  match sockets s !! i with
  | Some sock =>
      set_sockets
        (<[i := {| readyState := r; sent := sent sock;
                   closeCode := closeCode sock |}]> (sockets s)) s
  | None => s
  end.

Definition socket_readyState (s : State) (i : nat) : option ReadyState :=
  sock ← sockets s !! i; Some (readyState sock).

(** An action takes effect when the host can produce it: a connecting
    socket opens, a socket not yet closed closes, an open socket
    receives, a pending timer fires.  When the peer starts the closing
    handshake on an open socket, its [readyState] becomes [CLOSING]
    before the close event is delivered: that is [Closing], which runs no
    handler.  The code of a close event is the
    host's to choose: it is the code the peer sent, 1005 when the peer
    sent none, and 1006 when the connection was lost or was closed before
    it was established, whatever code [close] was called with.  An error
    event only runs [onerror]; the closure that comes with it is a
    [Closed] of its own. *)
Definition step (s : State) (a : Action) : option State :=
  match a with
  | Opened i =>
      match socket_readyState s i with
      | Some CONNECTING => Some (onopen (set_readyState i OPEN s))
      | _ => None
      end
  | Closing i =>
      match socket_readyState s i with
      | Some OPEN => Some (set_readyState i CLOSING s)
      | _ => None
      end
  | Closed i code =>
      match socket_readyState s i with
      | Some CONNECTING | Some OPEN | Some CLOSING =>
          Some (onclose code (set_readyState i CLOSED s))
      | _ => None
      end
  | Failed i =>
      match socket_readyState s i with
      | Some _ => Some (onerror s)
      | None => None
      end
  | Received i event =>
      match socket_readyState s i with
      | Some OPEN => Some (onmessage event s)
      | _ => None
      end
  | TimedOut t =>
      match timers s !! t with
      | Some {| delay := d; timerState := Pending |} =>
          Some (reconnect_callback
                  (set_timers (<[t := {| delay := d; timerState := Fired |}]>
                                 (timers s)) s))
      | _ => None
      end
  | Send message => Some (sendMessage message s)
  | Reconnect => Some (reconnect s)
  | Unmount => Some (cleanup s)
  end.

Fixpoint run (s : State) (l : list Action) : option State :=
  match l with
  | [] => Some s
  | a :: l' => match step s a with Some s' => run s' l' | None => None end
  end.

(** The actions of the host, as opposed to the calls of the component. *)
Definition host_action (a : Action) : bool :=
  match a with
  | Opened _ | Closing _ | Closed _ _ | Failed _ | Received _ _
  | TimedOut _ => true
  | Send _ | Reconnect | Unmount => false
  end.

(** The message event of the latest [Received] of a run, [m] when the
    run has none. *)
Fixpoint latest (l : list Action) (m : option MessageEvent)
    : option MessageEvent :=
  match l with
  | [] => m
  | Received _ event :: l' => latest l' (Some event)
  | _ :: l' => latest l' m
  end.

(** Nothing is left that could call [connect]: every socket has closed
    and no timer is pending. *)
Definition quiet (s : State) : Prop :=
  Forall (fun sock => readyState sock = CLOSED) (sockets s) /\
  Forall (fun t => timerState t <> Pending) (timers s).

(** The handle refers to the socket constructed last, the timer ref to
    the timer set last, and the retry count is not negative. *)
Definition well_formed (s : State) : Prop :=
  sockets s <> [] /\
  ws s = Some (pred (List.length (sockets s))) /\
  (reconnectTimeoutRef s = None /\ timers s = [] \/
   timers s <> [] /\
   reconnectTimeoutRef s = Some (pred (List.length (timers s)))) /\
  0 <= reconnectAttempts s.

(** The delays [onclose] can ask for while retries are allowed. *)
Definition delays_ok (s : State) : Prop :=
  Forall (fun t => In (delay t) [1000; 2000; 4000; 8000; 16000]) (timers s).

(** The actions that can call [connect]. *)
Definition connecting_actions (l : list Action) : nat :=
  List.length
    (List.filter (fun a => match a with
                           | TimedOut _ | Reconnect => true
                           | _ => false
                           end) l).

(** The runs of a component that only sends: no [reconnect], no
    unmounting. *)
Definition host_or_send (a : Action) : bool :=
  match a with
  | Reconnect | Unmount => false
  | _ => true
  end.

(** Every closure is reported with the code 1000. *)
Definition normal_closes (l : list Action) : bool :=
  forallb (fun a => match a with
                    | Closed _ code => code =? 1000
                    | _ => true
                    end) l.

(** One socket at a time: every socket but the last has closed, the
    handle is the last, a pending timer is the one the hook holds and
    waits for a closed socket, and the status [Connected] goes with a
    socket that is open or in the closing handshake. *)
Definition managed (s : State) : Prop :=
  exists closed cur,
    sockets s = (closed ++ [cur])%list /\
    Forall (fun sock => readyState sock = CLOSED) closed /\
    ws s = Some (List.length closed) /\
    (forall t tm, timers s !! t = Some tm -> timerState tm = Pending ->
       reconnectTimeoutRef s = Some t /\ readyState cur = CLOSED) /\
    (connectionStatus s = Connected ->
     readyState cur = OPEN \/ readyState cur = CLOSING).

(** No socket can open or receive any more and no timer is pending. *)
Definition settled (s : State) : Prop :=
  Forall (fun sock => readyState sock = CLOSING \/ readyState sock = CLOSED)
         (sockets s) /\
  Forall (fun t => timerState t <> Pending) (timers s).

End LiveChannel.

(** ** The query page: [QueryInterface]

    The part of the page that decides how a question travels and how the
    results are copied. *)

Module QueryInterface.
Import JS ResultsVisualizer LiveChannel.

Record QueryRequest : Type := {
  question : string;
  include_explanation : bool;
  max_results : Z;
}.

(** [JSON.stringify(queryRequest)]: the three properties in the order
    of the literal. *)
Definition stringify_request (request : QueryRequest) : string :=
  "{" ++ QuoteJSONString "question" ++ ":"
      ++ QuoteJSONString (question request)
  ++ "," ++ QuoteJSONString "include_explanation" ++ ":"
      ++ (if include_explanation request then "true" else "false")
  ++ "," ++ QuoteJSONString "max_results" ++ ":"
      ++ number_to_string (num_of_Z (max_results request))
  ++ "}".

Inductive Toast : Type :=
| toast_error (text : string)
| toast_success (text : string).

(** The state of the page that [handleExecuteQuery] reads and writes.
    The progress and the result are only ever reset by it: [true] says
    that one is shown.  [mutations] are the requests handed to the HTTP
    mutation. *)
Record Page : Type := {
  input : string;               (* the [question] state *)
  isExecuting : bool;
  hasProgress : bool;           (* [progress !== null] *)
  hasResult : bool;             (* [queryResult !== null] *)
  toasts : list Toast;
  mutations : list QueryRequest;
  channel : State;
}.

Definition handleExecuteQuery (page : Page) : Page :=
  if String.eqb (String_trim (input page)) "" then
    {| input := input page; isExecuting := isExecuting page;
       hasProgress := hasProgress page; hasResult := hasResult page;
       toasts := (toasts page ++ [toast_error "Please enter a question"])%list;
       mutations := mutations page; channel := channel page |}
  else
    let queryRequest :=
      {| question := String_trim (input page); include_explanation := true;
         max_results := 100 |} in
    match connectionStatus (channel page) with
    | Connected =>
        {| input := input page; isExecuting := true; hasProgress := false;
           hasResult := false; toasts := toasts page;
           mutations := mutations page;
           channel := sendMessage (stringify_request queryRequest)
                                  (channel page) |}
    | _ =>
        {| input := input page; isExecuting := true; hasProgress := false;
           hasResult := false; toasts := toasts page;
           mutations := (mutations page ++ [queryRequest])%list;
           channel := channel page |}
    end.

Definition newline : string := String (ascii_of_nat 10) "".

(** [JSON.stringify(row[header] || '')], as [join] prints it. *)
Definition cell (row : Row) (header : string) : string :=
  match JSON_stringify (or_else (prop row header) (VStr "")) with
  | Some text => text
  | None => ""
  end.

Definition convertToCSV (data : list Row) : string :=
  match data with
  | [] => ""
  | firstRow :: _ =>
      let headers := keys firstRow in
      let rows :=
        map (fun row => String.concat "," (map (cell row) headers)) data in
      String.concat newline (String.concat "," headers :: rows)
  end.

(** The number of line feeds of a text. *)
Fixpoint line_feeds (s : string) : nat :=
  match s with
  | EmptyString => 0
  | String c s' => (if code c =? 10 then 1 else 0) + line_feeds s'
  end.

(** A page in front of a stale status: [Connected] is shown while the
    socket of the channel is still connecting. *)
Definition stale_run : list Action :=
  [Opened 0; Reconnect; Closed 0 1005; TimedOut 0; Opened 1].

End QueryInterface.

(** * Properties of the chart selector *)

Import JS ResultsVisualizer.

Lemma classification_of_result (firstRow : Row) (rest : list Row) :
  let data := firstRow :: rest in
  numericColumns (analysisResult data)
    = List.filter (is_numeric data) (keys firstRow) /\
  categoricalColumns (analysisResult data)
    = List.filter (is_categorical data) (keys firstRow).
Proof.
  cbv zeta. unfold analysisResult.
  repeat match goal with |- context [if ?b then _ else _] => destruct b end;
    split; reflexivity.
Qed.

Lemma len_filter_pos {A} (f : A -> bool) (l : list A) :
  1 <= len (List.filter f l) <-> exists x, In x l /\ f x = true.
Proof.
  unfold len. split.
  - destruct (List.filter f l) as [|x l'] eqn:E; cbn; [lia|].
    intros _. exists x. apply filter_In. rewrite E. left. reflexivity.
  - intros (x & Hx & Hf).
    assert (Hin : In x (List.filter f l)) by (apply filter_In; auto).
    destruct (List.filter f l); [destruct Hin|cbn; lia].
Qed.

(** The bar condition says that the first row has a numeric column and
    a categorical column. *)
Lemma bar_rule_columns (firstRow : Row) (rest : list Row) :
  let data := firstRow :: rest in
  bar_rule (analysisResult data) <->
  (exists col, In col (keys firstRow) /\ is_numeric data col = true) /\
  (exists col, In col (keys firstRow) /\ is_categorical data col = true).
Proof.
  cbv zeta. unfold bar_rule.
  destruct (classification_of_result firstRow rest) as [-> ->].
  rewrite !len_filter_pos. reflexivity.
Qed.

Lemma empty_result_is_none :
  chartType (analysisResult []) = "none" /\ chartData (analysisResult []) = [].
Proof. split; reflexivity. Qed.

Lemma chart_decision (data : list Row) :
  data <> [] ->
  let r := analysisResult data in
  (chartType r = "bar" <-> bar_rule r) /\
  (chartType r = "scatter" <-> ~ bar_rule r /\ scatter_rule r) /\
  (chartType r = "pie" <->
     ~ bar_rule r /\ ~ scatter_rule r /\ pie_rule data r) /\
  (chartType r = "line" <->
     ~ bar_rule r /\ ~ scatter_rule r /\ ~ pie_rule data r /\
     line_rule data r) /\
  (chartType r = "table" <->
     ~ bar_rule r /\ ~ scatter_rule r /\ ~ pie_rule data r /\
     ~ line_rule data r).
Proof.
  intros Hne r. destruct data as [|firstRow rest]; [congruence|].
  subst r. unfold bar_rule, scatter_rule, pie_rule, line_rule, analysisResult.
  set (nums := List.filter _ _). set (cats := List.filter _ _).
  set (rows := firstRow :: rest).
  destruct (Z.leb_spec 1 (len nums)), (Z.leb_spec 1 (len cats)),
    (Z.leb_spec 2 (len nums)), (Z.eqb_spec (len cats) 1),
    (Z.leb_spec (len rows) 20), (Z.ltb_spec 5 (len rows));
    cbn [andb chartType numericColumns categoricalColumns];
    repeat split; intros; try discriminate; try lia.
Qed.

Lemma numeric_value_spec (val : value) :
  numeric_value val = true <->
  val <> VNull /\ val <> VUndefined /\ isNaN (Number val) = false.
Proof.
  unfold numeric_value. destruct val; try rewrite negb_true_iff;
    intuition congruence.
Qed.

Lemma is_numeric_column (data : list Row) (col : string) :
  is_numeric data col = true <-> numeric_column data col.
Proof.
  unfold is_numeric, sampleValues, numeric_column. rewrite forallb_forall.
  split.
  - intros H row Hrow.
    apply numeric_value_spec, H.
    apply (in_map (fun row => prop row col)), Hrow.
  - intros H val Hval. apply in_map_iff in Hval as (row & <- & Hrow).
    apply numeric_value_spec, H, Hrow.
Qed.





(** The mean of a group is stored under the name of the numeric column,
    next to the size of the group: the points have no [value] field. *)
Lemma bar_series_has_no_value_field :
  chartData (analysisResult payroll)
  <> [ [("name", VStr "Eng"); ("value", int 150)];
       [("name", VStr "Sales"); ("value", int 300)] ].
Proof. vm_compute. discriminate. Qed.

(** C2 (as amended).  For the three payroll rows the analysis is a bar
    chart whose series is, in this order, the point of [Eng] and the
    point of [Sales]: one point per distinct department in first-seen
    order, holding the department under [name], the mean of [sal] over
    the group under [sal] itself, and the number of rows of the group
    under [count]. *)
Theorem bar_series_of_payroll :
  chartType (analysisResult payroll) = "bar" /\
  chartData (analysisResult payroll)
  = [ [("name", VStr "Eng"); ("sal", int 150); ("count", int 2)];
      [("name", VStr "Sales"); ("sal", int 300); ("count", int 1)] ].
Proof. split; vm_compute; reflexivity. Qed.

(** The groups come in the order of [Object.values]: a key that is an
    array index goes before the others, in numeric order, so the group
    of [9] precedes the group of [10] that was seen first. *)
Lemma bar_series_of_ranks :
  chartType (analysisResult ranks) = "bar" /\
  map (fun point => prop point "name") (chartData (analysisResult ranks))
  = [VStr "9"; VStr "10"].
Proof. split; vm_compute; reflexivity. Qed.

(** Two rows with one text column match none of the four branches, and
    the kind returned is [table]: [none] is kept for the empty input. *)
Lemma fallback_is_not_none :
  let r := analysisResult two_labels in
  two_labels <> [] /\
  ~ bar_rule r /\ ~ scatter_rule r /\ ~ pie_rule two_labels r /\
  ~ line_rule two_labels r /\
  chartType r <> "none".
Proof.
  cbv zeta. unfold bar_rule, scatter_rule, pie_rule, line_rule.
  repeat split; try discriminate; vm_compute; intuition discriminate.
Qed.

(** C3 (as amended).  A non-empty result set that matches none of the
    four branches gives the kind [table], with the result set itself,
    unchanged, as the chart data.  The analysis is a total function of
    the rows: whatever scalars they hold, it returns. *)
Theorem fallback_is_table (data : list Row) :
  data <> [] ->
  let r := analysisResult data in
  ~ bar_rule r -> ~ scatter_rule r -> ~ pie_rule data r -> ~ line_rule data r ->
  chartType r = "table" /\ chartData r = data.
Proof.
  intros Hne r. destruct data as [|firstRow rest]; [congruence|].
  subst r. unfold bar_rule, scatter_rule, pie_rule, line_rule, analysisResult.
  set (nums := List.filter _ _). set (cats := List.filter _ _).
  set (rows := firstRow :: rest).
  destruct (Z.leb_spec 1 (len nums)), (Z.leb_spec 1 (len cats)),
    (Z.leb_spec 2 (len nums)), (Z.eqb_spec (len cats) 1),
    (Z.leb_spec (len rows) 20), (Z.ltb_spec 5 (len rows));
    cbn [andb chartType chartData numericColumns categoricalColumns];
    intros; try (split; reflexivity); exfalso; intuition lia.
Qed.

Lemma fallback_is_table_witness :
  two_labels <> [] /\
  chartType (analysisResult two_labels) = "table" /\
  chartData (analysisResult two_labels) = two_labels.
Proof.
  split; [discriminate|].
  apply (fallback_is_table two_labels); try discriminate;
    unfold bar_rule, scatter_rule, pie_rule, line_rule;
    vm_compute; intuition discriminate.
Defined.

(** A column holding the text [Infinity] is numeric, though its value
    coerces to no finite number. *)
Lemma numeric_column_not_finite :
  In "a" (keys (hd [] unbounded)) /\
  In "a" (numericColumns (analysisResult unbounded)) /\
  ~ (forall val, In val (sampleValues unbounded "a") ->
       val <> VNull /\ val <> VUndefined /\ isFinite (Number val) = true).
Proof.
  split; [vm_compute; auto|]. split; [vm_compute; auto|].
  intros H. destruct (H (VStr "Infinity")) as (_ & _ & Hfin).
  - vm_compute. auto.
  - vm_compute in Hfin. discriminate.
Qed.

(** C4 (as amended).  On a non-empty result set, a column of the first
    row is numeric if and only if, in each of the first ten rows, its
    value is neither null nor undefined and coerces to a number other
    than NaN (an infinity counts). *)
Theorem numeric_iff_sample_not_NaN (firstRow : Row) (rest : list Row)
    (col : string) :
  In col (keys firstRow) ->
  (In col (numericColumns (analysisResult (firstRow :: rest))) <->
   forall row, In row (firstn 10 (firstRow :: rest)) ->
     prop row col <> VNull /\ prop row col <> VUndefined /\
     isNaN (Number (prop row col)) = false).
Proof.
  intros Hcol.
  destruct (classification_of_result firstRow rest) as [-> _].
  rewrite filter_In, is_numeric_column. unfold numeric_column.
  split.
  - intros [_ H]. exact H.
  - intros H. split; [exact Hcol|exact H].
Qed.

Lemma numeric_iff_sample_not_NaN_witness :
  In "sal" (keys (hd [] payroll)) /\
  In "sal" (numericColumns (analysisResult payroll)).
Proof.
  split; [vm_compute; auto|].
  apply (numeric_iff_sample_not_NaN (hd [] payroll) (tl payroll) "sal").
  - vm_compute. auto.
  - intros row Hrow. vm_compute in Hrow.
    destruct Hrow as [<- | [<- | [<- | []]]]; vm_compute;
      repeat split; try (intro; discriminate).
Defined.

(** * Properties of the live channel *)

Import LiveChannel.

Section Frames.
(** What the host primitives leave alone. *)
Variable s : State.

Lemma set_readyState_frame (i : nat) (r : ReadyState) :
  let s' := set_readyState i r s in
  connectionStatus s' = connectionStatus s /\
  lastMessage s' = lastMessage s /\ ws s' = ws s /\
  reconnectTimeoutRef s' = reconnectTimeoutRef s /\
  reconnectAttempts s' = reconnectAttempts s /\
  timers s' = timers s /\ console s' = console s.
Proof.
  unfold set_readyState. destruct (sockets s !! i); cbn; repeat split.
Qed.

Lemma socket_close_frame (i : nat) (code : option Z) :
  let s' := socket_close i code s in
  connectionStatus s' = connectionStatus s /\
  lastMessage s' = lastMessage s /\ ws s' = ws s /\
  reconnectTimeoutRef s' = reconnectTimeoutRef s /\
  reconnectAttempts s' = reconnectAttempts s /\
  timers s' = timers s /\ console s' = console s /\
  List.length (sockets s') = List.length (sockets s).
Proof.
  unfold socket_close. destruct (sockets s !! i) as [[[] ? ?]|]; cbn;
    rewrite ?length_insert; repeat split.
Qed.

Lemma clearTimeout_frame (t : nat) :
  let s' := clearTimeout t s in
  connectionStatus s' = connectionStatus s /\
  lastMessage s' = lastMessage s /\ ws s' = ws s /\
  reconnectTimeoutRef s' = reconnectTimeoutRef s /\
  reconnectAttempts s' = reconnectAttempts s /\
  sockets s' = sockets s /\ console s' = console s.
Proof.
  unfold clearTimeout. destruct (timers s !! t) as [[? []]|]; cbn;
    repeat split.
Qed.

Lemma connect_lastMessage : lastMessage (connect s) = lastMessage s.
Proof. unfold connect. destruct (is_open _); reflexivity. Qed.
End Frames.

(** At the first abnormal closure after mounting the retry count is
    still 0 once the handler has run. *)
Lemma close_leaves_retry_count :
  exists s',
    step mount (Closed 0 1006) = Some s' /\
    reconnectAttempts mount < maxReconnectAttempts /\
    List.length (timers s') = 1%nat /\
    reconnectAttempts s' <> reconnectAttempts mount + 1.
Proof. eexists. split; [reflexivity|]. vm_compute. intuition discriminate. Qed.

(** C5 (as amended).  When a socket closes with a code other than 1000
    and the retry count [n] is below 5, the handler sets exactly one timer,
    of [min(1000 * 2^n, 30000)] milliseconds, and leaves the retry count
    at [n]; the count becomes [n + 1] when that timer fires, together with
    the call of [connect].  When [n] is 5 or more no timer is set.  In
    both cases the status is [Disconnected]. *)
Theorem abnormal_close_schedules_one_retry (s s' : State) (sock : nat)
    (code : Z) :
  step s (Closed sock code) = Some s' ->
  code <> 1000 ->
  let n := reconnectAttempts s in
  connectionStatus s' = Disconnected /\
  reconnectAttempts s' = n /\
  (n < 5 ->
     timers s'
       = (timers s ++ [{| delay := Z.min (1000 * 2 ^ n) 30000;
                          timerState := Pending |}])%list /\
     reconnectTimeoutRef s' = Some (List.length (timers s)) /\
     exists s'',
       step s' (TimedOut (List.length (timers s))) = Some s'' /\
       reconnectAttempts s'' = n + 1 /\
       (is_open (current_readyState s') = false ->
        sockets s'' = (sockets s' ++ [fresh_socket])%list /\
        connectionStatus s'' = Connecting)) /\
  (5 <= n ->
     timers s' = timers s /\ reconnectTimeoutRef s' = reconnectTimeoutRef s).
Proof.
  intros Hstep Hcode n. unfold step in Hstep.
  assert (Hs' : s' = onclose code (set_readyState sock CLOSED s))
    by (destruct (socket_readyState s sock) as [[]|]; congruence).
  clear Hstep. subst s'.
  destruct (set_readyState_frame s sock CLOSED)
    as (_ & _ & _ & Href & Hn & Htm & _).
  set (s1 := set_readyState sock CLOSED s) in *.
  unfold onclose. cbn [reconnectAttempts console_write setConnectionStatus].
  rewrite Hn. fold n.
  destruct (Z.eqb_spec code 1000) as [|_]; [contradiction|].
  unfold maxReconnectAttempts.
  destruct (Z.ltb_spec n 5) as [Hlt|Hge]; cbn - [Z.min Z.pow];
    rewrite ?Hn, ?Htm, ?Href; fold n;
    (split; [reflexivity|]); (split; [reflexivity|]);
    (split; [|intros; try lia; split; reflexivity]); [|intros; lia].
  intros _. unfold backoff.
  split; [reflexivity|]. split; [reflexivity|].
  rewrite lookup_app_r by lia. rewrite Nat.sub_diag. cbn - [Z.min Z.pow].
  eexists. split; [reflexivity|].
  unfold reconnect_callback, connect, current_readyState.
  cbn - [Z.min Z.pow]. split.
  - destruct (is_open _); cbn; rewrite Hn; reflexivity.
  - intros ->. cbn. split; reflexivity.
Qed.

Lemma abnormal_close_schedules_one_retry_witness :
  exists s',
    step mount (Closed 0 1006) = Some s' /\
    timers s' = [{| delay := 1000; timerState := Pending |}] /\
    reconnectAttempts s' = 0.
Proof.
  eexists. split; [reflexivity|].
  destruct (abnormal_close_schedules_one_retry mount _ 0%nat 1006 eq_refl)
    as (_ & Hn & Hlt & _); [discriminate|].
  split; [|exact Hn].
  destruct Hlt as (Ht & _); [vm_compute; reflexivity|]. exact Ht.
Defined.

(** A run after which the status is [Disconnected] while [ws.current]
    is open: the socket replaced by [reconnect] reports its closure after
    its successor has opened.  A message sent then is transmitted. *)
Lemma send_transmits_while_disconnected :
  exists s,
    run mount [Opened 0; Reconnect; Opened 1; Closed 0 1005] = Some s /\
    connectionStatus s <> Connected /\
    sockets (sendMessage "q" s) <> sockets s.
Proof.
  eexists. split; [vm_compute; reflexivity|].
  split; vm_compute; discriminate.
Qed.

(** C6 (as amended).  Calling [sendMessage] while the socket of the
    channel is absent or not open transmits and queues nothing and leaves
    the status, the retry count, the last message, the timers and the
    sockets as they were: the call only writes a warning to the console. *)
Theorem send_without_open_socket_is_noop (s : State) (message : string) :
  current_readyState s <> Some OPEN ->
  let s' := sendMessage message s in
  s' = console_write "WebSocket is not connected" s /\
  connectionStatus s' = connectionStatus s /\
  reconnectAttempts s' = reconnectAttempts s /\
  lastMessage s' = lastMessage s /\
  ws s' = ws s /\
  reconnectTimeoutRef s' = reconnectTimeoutRef s /\
  timers s' = timers s /\
  sockets s' = sockets s.
Proof.
  intros Hclosed. unfold sendMessage.
  destruct (current_readyState s) as [[]|]; cbn; try contradiction;
    repeat split.
Qed.

Lemma send_without_open_socket_is_noop_witness :
  current_readyState mount <> Some OPEN /\
  sockets (sendMessage "q" mount) = sockets mount /\
  connectionStatus (sendMessage "q" mount) = Connecting.
Proof.
  assert (H : current_readyState mount <> Some OPEN)
    by (vm_compute; discriminate).
  split; [exact H|].
  destruct (send_without_open_socket_is_noop mount "q" H)
    as (_ & Hst & _ & _ & _ & _ & _ & Hso).
  split; [exact Hso|]. rewrite Hst. reflexivity.
Defined.

(** What the cleanup does to the timer the hook holds and to its
    socket. *)
Lemma cleanup_clears_timer (s : State) (t : nat) (d : Z) :
  reconnectTimeoutRef s = Some t ->
  timers s !! t = Some {| delay := d; timerState := Pending |} ->
  timers (cleanup s) !! t = Some {| delay := d; timerState := Cleared |}.
Proof.
  intros Href Ht. unfold cleanup. rewrite Href.
  destruct (clearTimeout_frame s t) as (_ & _ & Hws & _).
  assert (Htm : timers (clearTimeout t s) !! t
                = Some {| delay := d; timerState := Cleared |}).
  { unfold clearTimeout. rewrite Ht. cbn.
    apply list_lookup_insert_eq. eapply lookup_lt_Some, Ht. }
  destruct (ws (clearTimeout t s)) as [i|]; [|exact Htm].
  destruct (socket_close_frame (clearTimeout t s) i (Some 1000))
    as (_ & _ & _ & _ & _ & -> & _).
  exact Htm.
Qed.

Lemma cleanup_closes_with_1000 (s : State) (i : nat) (sock : WebSocket) :
  ws s = Some i ->
  sockets s !! i = Some sock ->
  readyState sock = CONNECTING \/ readyState sock = OPEN ->
  sockets (cleanup s) !! i
  = Some {| readyState := CLOSING; sent := sent sock;
            closeCode := Some (Some 1000) |}.
Proof.
  intros Hws Hi Hlive. unfold cleanup.
  assert (Hframe : forall s0, ws s0 = Some i -> sockets s0 !! i = Some sock ->
            sockets (match ws s0 with
                     | Some k => socket_close k (Some 1000) s0
                     | None => s0
                     end) !! i
            = Some {| readyState := CLOSING; sent := sent sock;
                      closeCode := Some (Some 1000) |}).
  { intros s0 -> Hs0. unfold socket_close. rewrite Hs0.
    destruct Hlive as [-> | ->]; cbn;
      apply list_lookup_insert_eq; eapply lookup_lt_Some, Hs0. }
  destruct (reconnectTimeoutRef s) as [t|]; [|apply Hframe; assumption].
  destruct (clearTimeout_frame s t) as (_ & _ & Hws' & _ & _ & Hso & _).
  apply Hframe; congruence.
Qed.

(** Once every socket has closed and no timer is pending, the host can
    do nothing that makes the hook connect again. *)
Lemma quiet_stays_quiet (s s' : State) (a : Action) :
  quiet s -> host_action a = true -> step s a = Some s' ->
  quiet s' /\ sockets s' = sockets s.
Proof.
  intros [Hsock Htim] Ha Hstep.
  assert (Hclosed : forall i, socket_readyState s i = None \/
                             socket_readyState s i = Some CLOSED).
  { intros i. unfold socket_readyState.
    destruct (sockets s !! i) as [sock|] eqn:Hi; [right|left; reflexivity].
    cbn. f_equal. eapply Forall_lookup_1 in Hsock; eauto. }
  destruct a; try discriminate; cbn in Hstep.
  - destruct (Hclosed sock) as [E|E]; rewrite E in Hstep; discriminate.
  - destruct (Hclosed sock) as [E|E]; rewrite E in Hstep; discriminate.
  - destruct (Hclosed sock) as [E|E]; rewrite E in Hstep; discriminate.
  - destruct (socket_readyState s sock); [|discriminate].
    injection Hstep as <-.
    split; [split; [exact Hsock|exact Htim]|reflexivity].
  - destruct (Hclosed sock) as [E|E]; rewrite E in Hstep; discriminate.
  - destruct (timers s !! t) as [[d st]|] eqn:Ht; [|discriminate].
    eapply Forall_lookup_1 in Htim; eauto. cbn in Htim.
    destruct st; congruence.
Qed.

Lemma quiet_run (l : list Action) (s s' : State) :
  quiet s -> forallb host_action l = true -> run s l = Some s' ->
  sockets s' = sockets s.
Proof.
  revert s. induction l as [|a l IH]; intros s Hq Hl Hrun; cbn in *.
  - congruence.
  - apply andb_true_iff in Hl as [Ha Hl].
    destruct (step s a) as [s1|] eqn:Hstep; [|discriminate].
    destruct (quiet_stays_quiet s s1 a Hq Ha Hstep) as [Hq1 <-].
    apply IH; assumption.
Qed.

(** Disposal with a back-off timer pending, the only socket having closed:
    the timer is cleared and no connection attempt follows. *)
Lemma unmount_with_pending_timer_is_final (l : list Action) (s' : State) :
  forallb host_action l = true ->
  run mount (Closed 0 1006 :: Unmount :: l) = Some s' ->
  List.length (sockets s') = 1%nat.
Proof.
  intros Hl Hrun. cbn in Hrun.
  erewrite quiet_run; [| |exact Hl|exact Hrun]; [reflexivity|].
  split; cbn; repeat constructor; discriminate.
Qed.

(** C7 (the code at the failing run).  The hook is unmounted while its
    first socket is still connecting.  The cleanup calls [close(1000)],
    but a socket closed before it opened reports the code 1006: the
    handler sets a timer after the disposal, and when it fires a second
    socket is constructed. *)
Theorem unmount_while_connecting_reconnects :
  exists s1 s2 s3,
    step mount Unmount = Some s1 /\
    sockets s1 = [{| readyState := CLOSING; sent := [];
                     closeCode := Some (Some 1000) |}] /\
    timers s1 = [] /\
    step s1 (Closed 0 1006) = Some s2 /\
    timers s2 = [{| delay := 1000; timerState := Pending |}] /\
    step s2 (TimedOut 0) = Some s3 /\
    List.length (sockets s3) = 2%nat /\
    sockets s3 !! 1%nat = Some fresh_socket.
Proof. do 3 eexists. repeat split. Qed.

(** C8.  Calling [connect] while the socket of the channel is open
    returns at once: no socket is constructed and the state, with the
    status, the retry count and the handle, is the same. *)
Theorem connect_when_open_is_noop (s : State) :
  current_readyState s = Some OPEN ->
  connect s = s /\
  sockets (connect s) = sockets s /\
  connectionStatus (connect s) = connectionStatus s /\
  reconnectAttempts (connect s) = reconnectAttempts s /\
  ws (connect s) = ws s.
Proof.
  intros Hopen. unfold connect. rewrite Hopen. cbn. repeat split.
Qed.

Lemma connect_when_open_is_noop_witness :
  exists s,
    run mount [Opened 0] = Some s /\
    connectionStatus s = Connected /\
    connect s = s.
Proof.
  eexists. split; [reflexivity|]. split; [reflexivity|].
  apply connect_when_open_is_noop. reflexivity.
Defined.

(** C9.  The guard of [connect] looks at an open socket only.  Called
    while the socket of the channel exists but is not open, as when it is
    still connecting, [connect] constructs a second socket and stores it
    in place of the first.  The first one is left as it was, not closed,
    and nothing refers to it any more: even the cleanup does not reach
    it. *)
Theorem connect_while_connecting_replaces_socket (s : State) (i : nat)
    (sock : WebSocket) :
  ws s = Some i ->
  sockets s !! i = Some sock ->
  readyState sock <> OPEN ->
  let s' := connect s in
  sockets s' = (sockets s ++ [fresh_socket])%list /\
  ws s' = Some (List.length (sockets s)) /\
  ws s' <> Some i /\
  sockets s' !! i = Some sock /\
  connectionStatus s' = Connecting /\
  sockets (cleanup s') !! i = Some sock.
Proof.
  intros Hws Hi Hnot s'.
  assert (Hlt : (i < List.length (sockets s))%nat)
    by (eapply lookup_lt_Some, Hi).
  assert (Hs' : s' = set_ws (Some (List.length (sockets s)))
                       (set_sockets (sockets s ++ [fresh_socket])%list
                          (setConnectionStatus Connecting s))).
  { subst s'. unfold connect, current_readyState. rewrite Hws. cbn.
    rewrite Hi. cbn. destruct (readyState sock); try reflexivity.
    contradiction. }
  assert (Hold : sockets s' !! i = Some sock).
  { rewrite Hs'. cbn. rewrite lookup_app_l by exact Hlt. exact Hi. }
  repeat split; try (rewrite Hs'; reflexivity); try exact Hold.
  - rewrite Hs'. cbn. intros [= E]. lia.
  - unfold cleanup.
    set (s1 := match reconnectTimeoutRef s' with
               | Some t => clearTimeout t s'
               | None => s'
               end).
    assert (H1 : ws s1 = ws s' /\ sockets s1 = sockets s').
    { subst s1. destruct (reconnectTimeoutRef s') as [t|]; [|split; reflexivity].
      destruct (clearTimeout_frame s' t) as (_ & _ & ? & _ & _ & ? & _).
      split; assumption. }
    destruct H1 as [Hws1 Hso1].
    assert (Hk : ws s' = Some (List.length (sockets s)))
      by (rewrite Hs'; reflexivity).
    rewrite Hws1, Hk. unfold socket_close. rewrite Hso1.
    destruct (sockets s' !! List.length (sockets s)) as [[[] ? ?]|]; cbn;
      rewrite ?Hso1, ?list_lookup_insert_ne by lia; exact Hold.
Qed.

Lemma connect_while_connecting_replaces_socket_witness :
  exists s s',
    run mount [Opened 0; Reconnect; Closed 0 1005] = Some s /\
    step s (TimedOut 0) = Some s' /\
    sockets s !! 1%nat = Some fresh_socket /\
    sockets s' !! 1%nat = Some fresh_socket /\
    ws s = Some 1%nat /\ ws s' = Some 2%nat.
Proof.
  eexists. eexists. split; [vm_compute; reflexivity|].
  split; [vm_compute; reflexivity|].
  split; [reflexivity|]. split; [|split; reflexivity].
  match goal with |- sockets ?s' !! _ = _ =>
    change s' with (connect
      {| connectionStatus := Disconnected; lastMessage := None;
         ws := Some 1%nat; reconnectTimeoutRef := Some 0%nat;
         reconnectAttempts := 1;
         sockets := [{| readyState := CLOSED; sent := [];
                        closeCode := Some None |}; fresh_socket];
         timers := [{| delay := 1000; timerState := Fired |}];
         console := ["WebSocket connected"; "WebSocket disconnected:"] |})
  end.
  apply (connect_while_connecting_replaces_socket _ 1%nat fresh_socket);
    [reflexivity|reflexivity|discriminate].
Defined.

Lemma step_lastMessage (s s' : State) (a : Action) :
  step s a = Some s' ->
  lastMessage s' = match a with
                   | Received _ event => Some event
                   | _ => lastMessage s
                   end.
Proof.
  destruct a as [sock|sock|sock c|sock|sock event|t|message| |]; cbn;
    intros Hstep.
  - destruct (socket_readyState s sock) as [[]|]; try discriminate.
    injection Hstep as <-.
    apply (set_readyState_frame s sock OPEN).
  - destruct (socket_readyState s sock) as [[]|]; try discriminate.
    injection Hstep as <-.
    apply (set_readyState_frame s sock CLOSING).
  - assert (Hs' : s' = onclose c (set_readyState sock CLOSED s))
      by (destruct (socket_readyState s sock) as [[]|]; congruence).
    subst s'. unfold onclose.
    destruct (_ && _); cbn; apply (set_readyState_frame s sock CLOSED).
  - destruct (socket_readyState s sock); [|discriminate].
    injection Hstep as <-. reflexivity.
  - destruct (socket_readyState s sock) as [[]|]; try discriminate.
    injection Hstep as <-. reflexivity.
  - destruct (timers s !! t) as [[d []]|]; try discriminate.
    injection Hstep as <-. unfold reconnect_callback.
    rewrite connect_lastMessage. reflexivity.
  - injection Hstep as <-. unfold sendMessage.
    destruct (is_open _); [|reflexivity].
    destruct (ws s) as [i|]; [|reflexivity].
    unfold socket_send. destruct (sockets s !! i) as [[[] ? ?]|]; reflexivity.
  - injection Hstep as <-. unfold reconnect.
    rewrite connect_lastMessage.
    set (s1 := match reconnectTimeoutRef s with
               | Some t => clearTimeout t s
               | None => s
               end).
    assert (H1 : lastMessage s1 = lastMessage s).
    { subst s1. destruct (reconnectTimeoutRef s) as [t|]; [|reflexivity].
      apply (clearTimeout_frame s t). }
    cbn. destruct (ws s1) as [i|]; [|exact H1].
    destruct (socket_close_frame (set_reconnectAttempts 0 s1) i None)
      as (_ & -> & _). exact H1.
  - injection Hstep as <-. unfold cleanup.
    set (s1 := match reconnectTimeoutRef s with
               | Some t => clearTimeout t s
               | None => s
               end).
    assert (H1 : lastMessage s1 = lastMessage s).
    { subst s1. destruct (reconnectTimeoutRef s) as [t|]; [|reflexivity].
      apply (clearTimeout_frame s t). }
    destruct (ws s1) as [i|]; [|exact H1].
    destruct (socket_close_frame s1 i (Some 1000)) as (_ & -> & _). exact H1.
Qed.

(** C10.  The slot of the latest message is empty when the hook is
    created and mounted, [connect] does not touch it, and along every
    run it holds the event of the latest message received, whatever else
    happened since: opening, closing with any code, errors, timers, sends,
    [reconnect] and the cleanup leave it as it is. *)
Theorem lastMessage_written_by_messages_only (l : list Action)
    (s s' : State) :
  run s l = Some s' ->
  lastMessage initial = None /\
  lastMessage mount = None /\
  lastMessage (connect s) = lastMessage s /\
  lastMessage s' = latest l (lastMessage s).
Proof.
  intros Hrun. split; [reflexivity|]. split; [reflexivity|].
  split; [apply connect_lastMessage|].
  revert s Hrun. induction l as [|a l IH]; intros s Hrun; cbn in Hrun.
  - injection Hrun as <-. reflexivity.
  - destruct (step s a) as [s1|] eqn:Hstep; [|discriminate].
    rewrite (IH s1 Hrun), (step_lastMessage s s1 a Hstep).
    destruct a; reflexivity.
Qed.

Lemma lastMessage_written_by_messages_only_witness :
  exists s',
    run mount [Opened 0; Received 0 {| data := "progress" |};
               Closed 0 1006; TimedOut 0; Opened 1] = Some s' /\
    connectionStatus s' = Connected /\
    lastMessage s' = Some {| data := "progress" |}.
Proof.
  eexists. split; [vm_compute; reflexivity|]. split; [reflexivity|].
  refine (proj2 (proj2 (proj2 (lastMessage_written_by_messages_only
    [Opened 0; Received 0 {| data := "progress" |};
     Closed 0 1006; TimedOut 0; Opened 1] mount _ _)))).
  vm_compute. reflexivity.
Defined.

(** * Further properties of the chart selector *)

(** The branch taken, with the chart data it builds. *)
Lemma analysis_cases (firstRow : Row) (rest : list Row) :
  let data := firstRow :: rest in
  let r := analysisResult data in
  let nums := numericColumns r in
  let cats := categoricalColumns r in
  (chartType r = "bar" /\
   chartData r = bar_data (at_index cats 0) (at_index nums 0) data) \/
  (chartType r = "scatter" /\
   chartData r = scatter_data (at_index nums 0) (at_index nums 1) data) \/
  (chartType r = "pie" /\ chartData r = pie_data (at_index cats 0) data) \/
  (chartType r = "line" /\
   chartData r
   = line_data (at_index (keys firstRow) 0) (at_index nums 0) data) \/
  (chartType r = "table" /\ chartData r = data).
Proof.
  cbv zeta. unfold analysisResult.
  repeat match goal with |- context [if ?b then _ else _] => destruct b end;
    cbn [chartType chartData numericColumns categoricalColumns]; tauto.
Qed.

(** X1.  The kind is one of the six the component knows, and it is
    [none] for the empty result set only. *)
Theorem none_iff_empty (data : list Row) :
  let r := analysisResult data in
  (chartType r = "none" <-> data = []) /\
  In (chartType r) ["none"; "table"; "bar"; "scatter"; "pie"; "line"].
Proof.
  destruct data as [|firstRow rest]; cbv zeta.
  - split; [split; reflexivity|]. left. reflexivity.
  - destruct (analysis_cases firstRow rest)
      as [[-> _]|[[-> _]|[[-> _]|[[-> _]|[-> _]]]]];
      (split; [split; discriminate|]); cbn; tauto.
Qed.

Lemma is_categorical_bounds (data : list Row) (col : string) :
  is_categorical data col = true ->
  let distinct := len (new_Set (map (fun row => prop row col) data)) in
  2 <= distinct <= 20 /\ 5 * distinct <= 4 * len data.
Proof.
  unfold is_categorical. intros H. apply andb_true_iff in H as [Hle Hgt].
  apply Z.ltb_lt in Hgt. apply Qle_bool_iff in Hle.
  set (distinct := len _) in *. cbv zeta.
  unfold Math_min in Hle.
  destruct (Qle_bool (inject_Z 20) _) eqn:Hmin.
  - apply Qle_bool_iff in Hmin.
    unfold Qle, Qmult, inject_Z in *. cbn in *. lia.
  - assert (Hlt : ~ (inject_Z 20 <= inject_Z (len data) * (8 # 10))%Q)
      by (rewrite <- Qle_bool_iff; congruence).
    unfold Qle, Qmult, inject_Z in *. cbn in *. lia.
Qed.

(** X2.  A categorical column has between 2 and 20 distinct values, at
    most four fifths of the number of rows: there are at least three
    rows. *)
Theorem categorical_column_bounds (firstRow : Row) (rest : list Row)
    (col : string) :
  let data := firstRow :: rest in
  In col (categoricalColumns (analysisResult data)) ->
  let distinct := len (new_Set (map (fun row => prop row col) data)) in
  2 <= distinct <= 20 /\ 5 * distinct <= 4 * len data /\ 3 <= len data.
Proof.
  cbv zeta. destruct (classification_of_result firstRow rest) as [_ ->].
  rewrite filter_In. intros [_ H].
  destruct (is_categorical_bounds _ _ H) as [H1 H2]. lia.
Qed.

Lemma categorical_column_bounds_witness :
  In "dept" (categoricalColumns (analysisResult payroll)) /\
  3 <= len payroll.
Proof.
  assert (H : In "dept" (categoricalColumns (analysisResult payroll)))
    by (vm_compute; auto).
  split; [exact H|].
  apply (categorical_column_bounds (hd [] payroll) (tl payroll) "dept" H).
Defined.

(** X3.  With one or two rows no column is categorical, so the chart is
    a scatter plot when two columns are numeric and the raw table
    otherwise. *)
Theorem small_result_set_chart (data : list Row) :
  data <> [] -> len data <= 2 ->
  let r := analysisResult data in
  categoricalColumns r = [] /\
  (chartType r = "scatter" <-> 2 <= len (numericColumns r)) /\
  (chartType r = "table" <-> len (numericColumns r) <= 1).
Proof.
  intros Hne Hlen r.
  assert (Hcats : categoricalColumns r = []).
  { destruct data as [|firstRow rest]; [congruence|].
    destruct (categoricalColumns r) as [|col cols] eqn:E; [reflexivity|].
    assert (Hin : In col (categoricalColumns (analysisResult (firstRow :: rest))))
      by (fold r; rewrite E; left; reflexivity).
    destruct (classification_of_result firstRow rest) as [_ Hc].
    cbv zeta in Hc. rewrite Hc in Hin. apply filter_In in Hin as [_ Hin].
    apply is_categorical_bounds in Hin. lia. }
  split; [exact Hcats|].
  destruct (chart_decision data Hne)
    as (Hbar & Hscatter & Hpie & Hline & Htable).
  fold r in Hbar, Hscatter, Hpie, Hline, Htable.
  unfold bar_rule, scatter_rule, pie_rule, line_rule in *.
  rewrite Hcats in *. unfold len in *. cbn [List.length] in *.
  split; [rewrite Hscatter|rewrite Htable]; lia.
Qed.

Lemma small_result_set_chart_witness :
  unbounded <> [] /\ len unbounded <= 2 /\
  chartType (analysisResult unbounded) = "table".
Proof.
  assert (Hne : unbounded <> []) by discriminate.
  assert (Hlen : len unbounded <= 2) by (vm_compute; discriminate).
  split; [exact Hne|]. split; [exact Hlen|].
  apply (small_result_set_chart unbounded Hne Hlen).
  vm_compute. discriminate.
Defined.

(** [Number(v) || 0] is a number and never NaN: it is [Number(v)] unless
    that is NaN or zero. *)
Lemma number_or_zero_spec (v : value) :
  exists n, number_or_zero v = VNum n /\ isNaN n = false /\
    (truthy (VNum (Number v)) = true -> n = Number v) /\
    (truthy (VNum (Number v)) = false -> n = num_of_Z 0).
Proof.
  unfold number_or_zero, or_else.
  destruct (truthy (VNum (Number v))) eqn:E.
  - exists (Number v). repeat split; try congruence.
    destruct (Number v); [discriminate|reflexivity|reflexivity].
  - exists (num_of_Z 0). repeat split; congruence.
Qed.

(** X4.  The scatter plot has one point per row, in the order of the
    rows: the point of row [i] has the id [i] and, as coordinates, the
    first and the second numeric column of the row coerced to numbers,
    with 0 in place of NaN.  No coordinate is NaN, also on a row past the
    tenth where a numeric column holds text. *)
Theorem scatter_one_point_per_row (data : list Row) :
  let r := analysisResult data in
  chartType r = "scatter" ->
  exists xCol yCol others,
    numericColumns r = xCol :: yCol :: others /\
    List.length (chartData r) = List.length data /\
    forall i row, data !! i = Some row ->
      exists x y,
        chartData r !! i
        = Some [("x", VNum x); ("y", VNum y); ("id", int (Z.of_nat i))] /\
        VNum x = number_or_zero (prop row xCol) /\
        VNum y = number_or_zero (prop row yCol) /\
        isNaN x = false /\ isNaN y = false.
Proof.
  intros r Hkind.
  destruct data as [|firstRow rest]; [discriminate|].
  assert (Hne : firstRow :: rest <> []) by discriminate.
  destruct (chart_decision _ Hne) as (_ & Hs & _). fold r in Hs.
  apply Hs in Hkind as Hrule. destruct Hrule as [_ Hrule].
  unfold scatter_rule, len in Hrule.
  destruct (numericColumns r) as [|xCol [|yCol others]] eqn:Hnums;
    cbn in Hrule; try lia.
  exists xCol, yCol, others. split; [reflexivity|].
  destruct (analysis_cases firstRow rest)
    as [[E _]|[[_ E]|[[E _]|[[E _]|[E _]]]]];
    fold r in E; try congruence.
  rewrite E. fold r. rewrite Hnums. cbn [at_index nth_error].
  unfold scatter_data. split; [apply length_imap|].
  intros i row Hrow. unfold Row in *. rewrite list_lookup_imap, Hrow. cbn.
  destruct (number_or_zero_spec (prop row xCol)) as (x & -> & Hx & _).
  destruct (number_or_zero_spec (prop row yCol)) as (y & -> & Hy & _).
  exists x, y. repeat split; assumption.
Qed.

Lemma scatter_one_point_per_row_witness :
  chartType (analysisResult readings) = "scatter" /\
  List.length (chartData (analysisResult readings)) = 2%nat.
Proof.
  assert (H : chartType (analysisResult readings) = "scatter")
    by (vm_compute; reflexivity).
  split; [exact H|].
  destruct (scatter_one_point_per_row readings H) as (? & ? & ? & _ & Hl & _).
  exact Hl.
Defined.

(** X5.  The line chart has one point per row, in the order of the rows:
    the point of row [i] holds [i] as index, the first numeric column
    coerced to a number that is not NaN as value, and as name the value
    of the first column of the result set, or [Row i+1] when that value
    is missing, empty, zero or otherwise falsy. *)
Theorem line_one_point_per_row (data : list Row) :
  let r := analysisResult data in
  chartType r = "line" ->
  exists firstRow firstCol numericCol,
    head data = Some firstRow /\
    head (keys firstRow) = Some firstCol /\
    head (numericColumns r) = Some numericCol /\
    List.length (chartData r) = List.length data /\
    forall i row, data !! i = Some row ->
      exists v,
        chartData r !! i
        = Some [("index", int (Z.of_nat i)); ("value", VNum v);
                ("name",
                 if truthy (prop row firstCol) then prop row firstCol
                 else VStr ("Row " ++ digits_of (Z.of_nat i + 1)))] /\
        VNum v = number_or_zero (prop row numericCol) /\
        isNaN v = false.
Proof.
  intros r Hkind.
  destruct data as [|firstRow rest]; [discriminate|].
  assert (Hne : firstRow :: rest <> []) by discriminate.
  destruct (chart_decision _ Hne) as (_ & _ & _ & Hl & _). fold r in Hl.
  apply Hl in Hkind as Hrule. destruct Hrule as (_ & _ & _ & Hrule & _).
  unfold len in Hrule.
  destruct (numericColumns r) as [|numericCol others] eqn:Hnums;
    cbn in Hrule; try lia.
  assert (Hin : In numericCol (keys firstRow)).
  { destruct (classification_of_result firstRow rest) as [Hc _].
    fold r in Hc. rewrite Hnums in Hc.
    assert (H : In numericCol (numericCol :: others)) by (left; reflexivity).
    rewrite Hc in H. apply filter_In in H. tauto. }
  destruct (keys firstRow) as [|firstCol cols] eqn:Hkeys; [destruct Hin|].
  exists firstRow, firstCol, numericCol.
  split; [reflexivity|]. split; [rewrite Hkeys; reflexivity|].
  split; [reflexivity|].
  destruct (analysis_cases firstRow rest)
    as [[E _]|[[E _]|[[E _]|[[_ E]|[E _]]]]];
    fold r in E; try congruence.
  rewrite E. fold r. rewrite Hnums, Hkeys. cbn [at_index nth_error].
  unfold line_data. split; [apply length_imap|].
  intros i row Hrow. unfold Row in *. rewrite list_lookup_imap, Hrow. cbn.
  destruct (number_or_zero_spec (prop row numericCol)) as (v & -> & Hv & _).
  exists v. repeat split; assumption.
Qed.

Lemma line_one_point_per_row_witness :
  chartType (analysisResult series) = "line" /\
  List.length (chartData (analysisResult series)) = 6%nat.
Proof.
  assert (H : chartType (analysisResult series) = "line")
    by (vm_compute; reflexivity).
  split; [exact H|].
  destruct (line_one_point_per_row series H)
    as (? & ? & ? & _ & _ & _ & Hl & _).
  exact Hl.
Defined.

(** ** Plain objects: reading, writing and enumeration *)

Section ObjectFacts.
Context {V : Type}.
Implicit Types (o : object V) (k : string) (v : V).

Lemma get_set_eq o k v : get (set o k v) k = Some v.
Proof.
  induction o as [|[k' v'] o IH]; cbn.
  - rewrite String.eqb_refl. reflexivity.
  - destruct (String.eqb_spec k' k) as [->|Hne]; cbn.
    + rewrite String.eqb_refl. reflexivity.
    + destruct (String.eqb_spec k' k); [contradiction|exact IH].
Qed.

Lemma get_set_ne o k k' v : k <> k' -> get (set o k v) k' = get o k'.
Proof.
  intros Hne. induction o as [|[k0 v0] o IH]; cbn.
  - destruct (String.eqb_spec k k'); [contradiction|reflexivity].
  - destruct (String.eqb_spec k0 k) as [->|Hk]; cbn.
    + destruct (String.eqb_spec k k'); [contradiction|reflexivity].
    + destruct (String.eqb_spec k0 k'); [reflexivity|exact IH].
Qed.

Lemma get_In o k : get o k <> None <-> In k (map fst o).
Proof.
  induction o as [|[k' v'] o IH]; cbn; [tauto|].
  destruct (String.eqb_spec k' k) as [->|Hne].
  - split; [auto|discriminate].
  - rewrite IH. intuition congruence.
Qed.

Lemma get_Some_In o k v : get o k = Some v -> In v (map snd o).
Proof.
  induction o as [|[k' v'] o IH]; cbn; [discriminate|].
  destruct (String.eqb k' k); [intros [= ->]; auto|auto].
Qed.

Lemma set_values o k v (P : V -> Prop) :
  Forall P (map snd o) -> P v -> Forall P (map snd (set o k v)).
Proof.
  intros Ho Hv. induction o as [|[k' v'] o IH]; cbn.
  - constructor; [exact Hv|constructor].
  - inversion Ho; subst. destruct (String.eqb k' k); cbn; constructor; auto.
Qed.

Lemma set_length o k v :
  (List.length o <= List.length (set o k v) <= S (List.length o))%nat /\
  (1 <= List.length (set o k v))%nat.
Proof.
  induction o as [|[k' v'] o IH]; cbn; [lia|].
  destruct (String.eqb k' k); cbn; lia.
Qed.

Lemma insert_sorted_Permutation (i : Z) (p : string * V)
    (l : list (Z * (string * V))) :
  Permutation (map snd (insert_sorted i p l)) (p :: map snd l).
Proof.
  induction l as [|[j q] l IH]; cbn; [reflexivity|].
  destruct (i <? j); cbn; [reflexivity|].
  rewrite IH. apply perm_swap.
Qed.

(** [Object.entries] lists every own property once. *)
Lemma entries_Permutation o : Permutation (entries o) o.
Proof.
  unfold entries.
  induction o as [|[k v] o IH]; cbn; [reflexivity|].
  destruct (split_index o) as [ix rest].
  destruct (array_index k) as [i|].
  - rewrite insert_sorted_Permutation. cbn. constructor. exact IH.
  - rewrite <- Permutation_middle. constructor. exact IH.
Qed.

Lemma values_Permutation o : Permutation (values o) (map snd o).
Proof. unfold values. apply Permutation_map, entries_Permutation. Qed.

Lemma get_entries o k : get (entries o) k <> None <-> get o k <> None.
Proof.
  rewrite !get_In. split; apply Permutation_in, Permutation_map;
    [|symmetry]; apply entries_Permutation.
Qed.

End ObjectFacts.

(** ** The pie branch *)

Lemma int_succ (c : Z) : plus (int c) (int 1) = int (c + 1).
Proof.
  unfold int, plus, num_of_Z. cbn [Number num_add]. do 2 f_equal.
  unfold Qplus, inject_Z. cbn [Qnum Qden]. rewrite !Z.mul_1_r.
  apply Qred_identity. cbn. apply Z.gcd_1_r.
Qed.

Lemma count_plain (categoryCol : string) (acc : object value) (row : Row) :
  Object_prototype (to_string (prop row categoryCol)) = None ->
  count categoryCol acc row
  = set acc (to_string (prop row categoryCol))
        (plus (or_else (prop acc (to_string (prop row categoryCol)))
                       (VNum (num_of_Z 0)))
              (VNum (num_of_Z 1))).
Proof.
  intros Hplain. unfold count. cbv zeta. rewrite Hplain.
  destruct (get acc _); reflexivity.
Qed.

Lemma count_step (categoryCol : string) (acc : object value) (row : Row) :
  Object_prototype (to_string (prop row categoryCol)) = None ->
  counted acc ->
  counted (count categoryCol acc row) /\
  total (count categoryCol acc row) = total acc + 1.
Proof.
  intros Hplain. rewrite count_plain by exact Hplain. clear Hplain.
  set (key := to_string _). clearbody key.
  unfold counted, prop. induction acc as [|[k v] acc IH]; intros Hc.
  - cbn. split; [|reflexivity].
    constructor; [|constructor]. exists 1. split; [lia|reflexivity].
  - inversion Hc as [|? ? (c & Hc1 & ->) Hrest]; subst. cbn [get set].
    destruct (String.eqb k key) eqn:Hk.
    + assert (Hor : or_else (int c) (VNum (num_of_Z 0)) = int c).
      { unfold or_else, int, num_of_Z, truthy, Qzero, inject_Z. cbn.
        destruct (Z.eqb_spec c 0); [lia|reflexivity]. }
      rewrite Hor, int_succ. unfold total. cbn. split; [|lia].
      constructor; [|exact Hrest]. exists (c + 1). split; [lia|reflexivity].
    + destruct (IH Hrest) as [IH1 IH2]. unfold total in *.
      cbn [fold_right map snd] in *. split; [|lia].
      constructor; [|exact IH1]. exists c. split; [lia|reflexivity].
Qed.

Lemma counts_total (categoryCol : string) (data : list Row)
    (acc : object value) :
  plain_keys categoryCol data ->
  counted acc ->
  let counts := fold_left (count categoryCol) data acc in
  counted counts /\ total counts = total acc + len data.
Proof.
  revert acc. induction data as [|row data IH]; intros acc Hplain Hc;
    cbn [fold_left]; cbv zeta.
  - split; [exact Hc|]. unfold len. cbn [List.length]. lia.
  - inversion Hplain as [|? ? Hrow Hrest]; subst.
    destruct (count_step categoryCol acc row Hrow Hc) as [Hc' Ht].
    destruct (IH _ Hrest Hc') as [IH1 IH2]. split; [exact IH1|].
    cbv zeta in IH2. rewrite IH2, Ht. unfold len. cbn [List.length]. lia.
Qed.

Lemma total_Permutation (a b : object value) :
  Permutation a b -> total a = total b.
Proof. unfold total. induction 1; cbn [fold_right]; lia. Qed.

(** X6.  When no value of the category column names a member of
    [Object.prototype], the slices of the pie count rows: every slice
    holds a whole number of at least 1 under [value], and the values add
    up to the number of rows. *)
Theorem pie_counts_sum_to_rows (data : list Row) (categoryCol : string) :
  let r := analysisResult data in
  chartType r = "pie" ->
  head (categoricalColumns r) = Some categoryCol ->
  plain_keys categoryCol data ->
  exists cs : list Z,
    map (fun point => prop point "value") (chartData r) = map int cs /\
    Forall (fun c => 1 <= c) cs /\
    fold_right Z.add 0 cs = len data.
Proof.
  intros r Hkind Hcol Hplain.
  destruct data as [|firstRow rest]; [discriminate|].
  destruct (analysis_cases firstRow rest)
    as [[E _]|[[E _]|[[_ E]|[[E _]|[E _]]]]];
    fold r in E; try congruence.
  rewrite E. unfold pie_data.
  assert (Hat : at_index (categoricalColumns r) 0 = categoryCol)
    by (destruct (categoricalColumns r); [discriminate|];
        cbn in Hcol |- *; congruence).
  rewrite Hat. set (rows := firstRow :: rest) in *.
  destruct (counts_total categoryCol rows [] Hplain) as [Hc Ht];
    [constructor|].
  set (counts := fold_left (count categoryCol) rows []) in *.
  assert (Hperm := entries_Permutation counts).
  rewrite <- (total_Permutation _ _ Hperm) in Ht.
  assert (Hc' : counted (entries counts)).
  { unfold counted in *. eapply Permutation_Forall; [|exact Hc].
    symmetry. apply Permutation_map, Hperm. }
  clear Hperm Hc. change (total []) with 0 in Ht.
  rewrite Z.add_0_l in Ht. rewrite <- Ht. clear Ht.
  unfold counted, total in *.
  induction (entries counts) as [|[name v] l IH].
  - exists []. repeat split. constructor.
  - inversion Hc' as [|? ? (c & Hc1 & Hv) Hrest]; subst.
    destruct (IH Hrest) as (cs & Hmap & Hpos & Hsum).
    exists (c :: cs). cbn [map fold_right snd] in *. rewrite Hmap, Hsum.
    split; [reflexivity|]. split; [constructor; assumption|reflexivity].
Qed.

Lemma pie_counts_sum_to_rows_witness :
  chartType (analysisResult colours) = "pie" /\
  plain_keys "c" colours /\
  exists cs : list Z,
    map (fun point => prop point "value")
        (chartData (analysisResult colours)) = map int cs /\
    fold_right Z.add 0 cs = 3.
Proof.
  assert (H : chartType (analysisResult colours) = "pie")
    by (vm_compute; reflexivity).
  assert (Hcol : head (categoricalColumns (analysisResult colours))
                 = Some "c") by (vm_compute; reflexivity).
  assert (Hplain : plain_keys "c" colours)
    by (repeat constructor).
  split; [exact H|]. split; [exact Hplain|].
  destruct (pie_counts_sum_to_rows colours "c" H Hcol Hplain)
    as (cs & Hm & _ & Hs).
  exists cs. split; [exact Hm|exact Hs].
Defined.

(** A slice of a category that names a method of [Object.prototype]
    holds a text, not a count. *)
Lemma pie_slice_of_inherited_name :
  chartData (analysisResult
               [ [("c", VStr "constructor")]; [("c", VStr "a")];
                 [("c", VStr "a")] ])
  = [ [("name", VStr "constructor");
       ("value", VStr "function Object() { [native code] }1")];
      [("name", VStr "a"); ("value", int 2)] ].
Proof. vm_compute. reflexivity. Qed.

(** ** The bar branch *)

Lemma aggregate_plain (categoryCol numericCol : string)
    (acc : object (object value)) (row : Row) :
  Object_prototype (to_string (prop row categoryCol)) = None ->
  exists item,
    aggregate categoryCol numericCol acc row
    = set acc (to_string (prop row categoryCol)) item.
Proof.
  intros Hplain. unfold aggregate. cbv zeta. rewrite Hplain.
  destruct (get acc _); eexists; reflexivity.
Qed.

Lemma aggregate_named (categoryCol numericCol : string)
    (acc : object (object value)) (row : Row) :
  Forall (fun item => get item "name" <> None) (map snd acc) ->
  Forall (fun item => get item "name" <> None)
         (map snd (aggregate categoryCol numericCol acc row)).
Proof.
  intros Hacc.
  assert (Hkeep : forall (o : object value) k v,
            get o "name" <> None -> get (set o k v) "name" <> None).
  { intros o k v Ho. destruct (String.eqb_spec k "name") as [->|Hne].
    - rewrite get_set_eq. discriminate.
    - rewrite get_set_ne by exact Hne. exact Ho. }
  unfold aggregate. cbv zeta.
  destruct (get acc _) as [item|] eqn:E.
  - apply set_values; [exact Hacc|]. do 2 apply Hkeep.
    apply get_Some_In in E. rewrite List.Forall_forall in Hacc.
    apply Hacc, E.
  - destruct (Object_prototype _); [exact Hacc|].
    apply set_values; [exact Hacc|]. do 4 apply Hkeep. cbn. discriminate.
Qed.

Lemma aggregated_named (categoryCol numericCol : string) (data : list Row)
    (acc : object (object value)) :
  Forall (fun item => get item "name" <> None) (map snd acc) ->
  Forall (fun item => get item "name" <> None)
         (map snd (fold_left (aggregate categoryCol numericCol) data acc)).
Proof.
  revert acc. induction data as [|row data IH]; intros acc Hacc; cbn.
  - exact Hacc.
  - apply IH, aggregate_named, Hacc.
Qed.

Lemma aggregate_length (categoryCol numericCol : string)
    (acc : object (object value)) (row : Row) :
  (List.length acc
   <= List.length (aggregate categoryCol numericCol acc row)
   <= List.length acc + 1)%nat.
Proof.
  unfold aggregate. cbv zeta.
  destruct (get acc _); [|destruct (Object_prototype _)];
    try match goal with
        | |- context [List.length (set ?o ?k ?v)] =>
            destruct (set_length o k v)
        end; lia.
Qed.

Lemma aggregated_length (categoryCol numericCol : string) (data : list Row)
    (acc : object (object value)) :
  let aggregated := fold_left (aggregate categoryCol numericCol) data acc in
  (List.length acc <= List.length aggregated
   <= List.length acc + List.length data)%nat.
Proof.
  revert acc. induction data as [|row data IH]; intros acc; cbn.
  - lia.
  - specialize (IH (aggregate categoryCol numericCol acc row)).
    cbv zeta in IH.
    pose proof (aggregate_length categoryCol numericCol acc row). lia.
Qed.

Lemma aggregated_nonempty (categoryCol numericCol : string)
    (data : list Row) :
  data <> [] -> plain_keys categoryCol data ->
  (1 <= List.length (fold_left (aggregate categoryCol numericCol) data []))%nat.
Proof.
  intros Hne Hplain. destruct data as [|row data]; [congruence|].
  inversion Hplain as [|? ? Hrow _]; subst. cbn [fold_left].
  pose proof (aggregated_length categoryCol numericCol data
                (aggregate categoryCol numericCol [] row)) as Hlen.
  cbv zeta in Hlen.
  destruct (aggregate_plain categoryCol numericCol [] row Hrow)
    as [item Hitem].
  assert (Hone : List.length (aggregate categoryCol numericCol [] row)
                 = 1%nat) by (rewrite Hitem; reflexivity).
  lia.
Qed.

Lemma bar_branch_points (data : list Row) :
  let r := analysisResult data in
  chartType r = "bar" ->
  exists categoryCol numericCol,
    head (categoricalColumns r) = Some categoryCol /\
    head (numericColumns r) = Some numericCol /\
    (List.length (chartData r) <= List.length data)%nat /\
    (plain_keys categoryCol data -> (1 <= List.length (chartData r))%nat) /\
    forall point, In point (chartData r) ->
      get point "name" <> None /\
      exists mean, get point numericCol = Some (VNum mean).
Proof.
  intros r Hkind.
  destruct data as [|firstRow rest]; [discriminate|].
  assert (Hne : firstRow :: rest <> []) by discriminate.
  destruct (chart_decision _ Hne) as (Hb & _). fold r in Hb.
  apply Hb in Hkind as Hrule. destruct Hrule as [Hn Hc].
  unfold len in Hn, Hc.
  destruct (numericColumns r) as [|numericCol ?] eqn:Hnums; cbn in Hn; try lia.
  destruct (categoricalColumns r) as [|categoryCol ?] eqn:Hcats;
    cbn in Hc; try lia.
  exists categoryCol, numericCol.
  split; [reflexivity|]. split; [reflexivity|].
  destruct (analysis_cases firstRow rest)
    as [[_ E]|[[E _]|[[E _]|[[E _]|[E _]]]]];
    fold r in E; try congruence.
  rewrite E. fold r. rewrite Hnums, Hcats. cbn [at_index nth_error].
  unfold bar_data. set (rows := firstRow :: rest) in *.
  set (aggregated := fold_left (aggregate categoryCol numericCol) rows []).
  assert (Hperm := values_Permutation aggregated).
  assert (Hlen : List.length (map (average numericCol) (values aggregated))
                 = List.length aggregated)
    by (rewrite length_map, (Permutation_length Hperm), length_map;
        reflexivity).
  rewrite Hlen. split; [|split].
  - pose proof (aggregated_length categoryCol numericCol rows []) as H1.
    cbv zeta in H1. fold aggregated in H1.
    change (List.length (@nil (string * object value))) with 0%nat in H1. lia.
  - intros Hplain.
    apply (aggregated_nonempty categoryCol numericCol rows Hne Hplain).
  - intros point Hin. apply in_map_iff in Hin as (item & <- & Hitem).
    unfold average. split.
    + assert (Hname : get item "name" <> None).
      { pose proof (aggregated_named categoryCol numericCol rows []
                      (List.Forall_nil _)) as Hall.
        fold aggregated in Hall. rewrite List.Forall_forall in Hall.
        apply Hall. eapply Permutation_in; [exact Hperm|exact Hitem]. }
      destruct (String.eqb_spec numericCol "name") as [->|Hdiff].
      * rewrite get_set_eq. discriminate.
      * rewrite get_set_ne by exact Hdiff. apply get_entries, Hname.
    + rewrite get_set_eq. unfold divide. eexists. reflexivity.
Qed.

(** X7.  The bar chart has at most one bar per row, and at least one
    when no value of the category column names a member of
    [Object.prototype].  Every point holds a [name] and, under the name
    of the first numeric column, a number: the mean of the group. *)
Theorem bar_points (data : list Row) :
  let r := analysisResult data in
  chartType r = "bar" ->
  exists categoryCol numericCol,
    head (categoricalColumns r) = Some categoryCol /\
    head (numericColumns r) = Some numericCol /\
    (plain_keys categoryCol data ->
     (1 <= List.length (chartData r) <= List.length data)%nat /\
     forall point, In point (chartData r) ->
       get point "name" <> None /\
       exists mean, get point numericCol = Some (VNum mean)).
Proof.
  intros r Hkind.
  destruct (bar_branch_points data Hkind)
    as (categoryCol & numericCol & Hc & Hn & Hle & Hge & Hpoints).
  exists categoryCol, numericCol.
  split; [exact Hc|]. split; [exact Hn|].
  intros Hplain. specialize (Hge Hplain). fold r in Hle, Hge.
  split; [lia|exact Hpoints].
Qed.

Lemma bar_points_witness :
  chartType (analysisResult payroll) = "bar" /\
  plain_keys "dept" payroll /\
  (1 <= List.length (chartData (analysisResult payroll)) <= 3)%nat.
Proof.
  assert (H : chartType (analysisResult payroll) = "bar")
    by (vm_compute; reflexivity).
  assert (Hplain : plain_keys "dept" payroll) by (repeat constructor).
  split; [exact H|]. split; [exact Hplain|].
  destruct (bar_points payroll H) as (categoryCol & ? & Hc & _ & Hpoints).
  assert (categoryCol = "dept") as ->
    by (vm_compute in Hc; congruence).
  destruct (Hpoints Hplain) as [Hl _]. exact Hl.
Defined.

(** A category that names a member of [Object.prototype] gets no bar:
    here no row does, and the bar chart is empty. *)
Lemma bar_chart_without_bars :
  let data :=
    [ [("c", VStr "constructor"); ("n", int 1)];
      [("c", VStr "toString"); ("n", int 2)];
      [("c", VStr "constructor"); ("n", int 3)] ] in
  chartType (analysisResult data) = "bar" /\
  chartData (analysisResult data) = [] /\
  analysis_throws data = false.
Proof. vm_compute. repeat split. Qed.

(** Without such a category the analysis returns. *)
Lemma plain_keys_do_not_throw (categoryCol numericCol : string)
    (data : list Row) (acc : object (object value)) :
  plain_keys categoryCol data ->
  bar_throws categoryCol numericCol data acc = false.
Proof.
  intros Hplain. revert acc.
  induction Hplain as [|row data Hrow _ IH]; intros acc; cbn [bar_throws].
  - reflexivity.
  - rewrite IH, orb_false_r. unfold aggregate_throws. cbv zeta.
    rewrite Hrow. destruct (get acc _); reflexivity.
Qed.

(** ** [renderChart] and [getDataInsights] *)

(** X8.  The notice that no visualization fits is shown exactly for the
    kinds [none] and [table]: for the empty result set and for a result
    set that matches none of the four branches. *)
Theorem no_visualization_iff (data : list Row) :
  let r := analysisResult data in
  renderChart r = NoVisualization <->
  data = [] \/
  (~ bar_rule r /\ ~ scatter_rule r /\ ~ pie_rule data r /\
   ~ line_rule data r).
Proof.
  intros r. destruct data as [|firstRow rest].
  - split; [left; reflexivity|reflexivity].
  - assert (Hne : firstRow :: rest <> []) by discriminate.
    destruct (chart_decision _ Hne) as (_ & _ & _ & _ & Ht). fold r in Ht.
    rewrite <- Ht. unfold renderChart.
    destruct (analysis_cases firstRow rest)
      as [[E _]|[[E _]|[[E _]|[[E _]|[E _]]]]];
      fold r in E; rewrite E; cbn;
      (split; [intros H; try discriminate; right; reflexivity
              |intros [H|H]; try discriminate; reflexivity]).
Qed.

(** X9.  When a bar chart is drawn, the key it reads the bars from is
    defined and every point of its data holds a number under that key. *)
Theorem rendered_bar_key_is_present (data chart : list (object value))
    (dataKey fill : option string) :
  renderChart (analysisResult data) = BarChart chart dataKey fill ->
  chart = chartData (analysisResult data) /\
  exists key, dataKey = Some key /\
    forall point, In point chart ->
      exists mean, get point key = Some (VNum mean).
Proof.
  intros Hrender. unfold renderChart in Hrender.
  destruct (String.eqb_spec (chartType (analysisResult data)) "bar")
    as [Hkind|_].
  - injection Hrender as <- <- <-. split; [reflexivity|].
    destruct (bar_branch_points data Hkind)
      as (categoryCol & numericCol & _ & Hnum & _ & _ & Hpoints).
    exists numericCol. split.
    + destruct (numericColumns _); [discriminate|exact Hnum].
    + intros point Hin. apply Hpoints, Hin.
  - repeat match type of Hrender with
           | (if ?b then _ else _) = _ => destruct b
           end; discriminate.
Qed.

Lemma rendered_bar_key_is_present_witness :
  exists chart fill,
    renderChart (analysisResult payroll) = BarChart chart (Some "sal") fill /\
    forall point, In point chart ->
      exists mean, get point "sal" = Some (VNum mean).
Proof.
  eexists. eexists. split; [vm_compute; reflexivity|].
  intros point Hin.
  destruct (rendered_bar_key_is_present payroll _ _ _ eq_refl)
    as (_ & key & Hkey & Hpoints).
  injection Hkey as <-. apply Hpoints. exact Hin.
Defined.

(** X10.  When a pie is drawn, every slice gets a cell with a colour of
    the palette: the cell of slice [i] takes the colour at [i mod 8], so
    from the ninth slice on the colours repeat and none is undefined. *)
Theorem pie_cells_coloured (r : Analysis) (chart : list (object value))
    (key : string) (cells : list (option string)) :
  renderChart r = PieChart chart key cells ->
  chart = chartData r /\
  List.length cells = List.length chart /\
  forall i, (i < List.length chart)%nat ->
    exists colour,
      cells !! i = Some (Some colour) /\
      nth_error COLORS (i mod 8) = Some colour.
Proof.
  unfold renderChart. intros Hrender.
  repeat match type of Hrender with
         | (if ?b then _ else _) = _ => destruct b
         end; try discriminate.
  injection Hrender as <- <- <-.
  split; [reflexivity|]. split; [apply length_imap|].
  intros i Hi. rewrite list_lookup_imap.
  destruct (lookup_lt_is_Some_2 _ _ Hi) as [point ->].
  change (exists colour,
            Some (nth_error COLORS (i mod 8)) = Some (Some colour) /\
            nth_error COLORS (i mod 8) = Some colour).
  assert (Hmod : (i mod 8 < 8)%nat) by (apply Nat.mod_upper_bound; lia).
  destruct (i mod 8)%nat as [|[|[|[|[|[|[|[|n]]]]]]]];
    try (eexists; split; reflexivity); lia.
Qed.

Lemma pie_cells_coloured_witness :
  exists chart key cells,
    renderChart (analysisResult colours) = PieChart chart key cells /\
    List.length cells = 2%nat.
Proof.
  do 3 eexists. split; [vm_compute; reflexivity|].
  destruct (pie_cells_coloured (analysisResult colours) _ _ _ eq_refl)
    as (_ & Hlen & _).
  exact Hlen.
Defined.

(** X11.  The insights are null for the empty result set only.  Otherwise
    the first line is the number of rows, followed by at most two lines,
    on the numeric and on the categorical columns: both are there when a
    bar chart is drawn, and when neither is there no chart is drawn. *)
Theorem insights_follow_classification (data : list Row) :
  let r := analysisResult data in
  (getDataInsights data = None <-> data = []) /\
  forall lines, getDataInsights data = Some lines ->
    exists others,
      lines = (digits_of (len data) ++ " rows of data") :: others /\
      (List.length others <= 2)%nat /\
      (others = [] -> chartType r = "table") /\
      (chartType r = "bar" -> List.length others = 2%nat).
Proof.
  intros r. destruct data as [|firstRow rest].
  - split; [split; reflexivity|discriminate].
  - split; [split; discriminate|].
    assert (Hne : firstRow :: rest <> []) by discriminate.
    destruct (chart_decision _ Hne) as (Hb & _ & _ & _ & Ht).
    fold r in Hb, Ht.
    unfold bar_rule, scatter_rule, pie_rule, line_rule in Hb, Ht.
    intros lines. unfold getDataInsights. fold r.
    destruct (Z.ltb_spec 0 (len (numericColumns r))),
      (Z.ltb_spec 0 (len (categoricalColumns r)));
      intros [= <-]; eexists; (split; [reflexivity|]); cbn [List.length app];
      (split; [lia|]);
      (split; [intros Hnone; try discriminate; apply Ht; lia
              |intros Hbar; apply Hb in Hbar; lia]).
Qed.

(** X12.  Whether a column is numeric depends on the first ten rows
    only: two result sets with the same first ten rows have the same
    numeric columns, whatever the later rows hold. *)
Theorem numeric_from_first_ten_rows (data data' : list Row) :
  data <> [] ->
  firstn 10 data = firstn 10 data' ->
  numericColumns (analysisResult data)
  = numericColumns (analysisResult data').
Proof.
  intros Hne Hten.
  destruct data as [|firstRow rest]; [congruence|].
  destruct data' as [|firstRow' rest']; [discriminate|].
  assert (firstRow' = firstRow) as -> by (cbn in Hten; congruence).
  destruct (classification_of_result firstRow rest) as [-> _].
  destruct (classification_of_result firstRow rest') as [-> _].
  apply filter_ext. intros col. unfold is_numeric, sampleValues.
  rewrite Hten. reflexivity.
Qed.

Lemma numeric_from_first_ten_rows_witness :
  numericColumns (analysisResult (series ++ series ++ two_labels))
  = numericColumns (analysisResult (series ++ series)).
Proof.
  apply numeric_from_first_ten_rows; [discriminate|reflexivity].
Defined.

(** * Further properties of the live channel *)

(** X13.  [reconnect] always constructs a socket, whatever the state:
    the new socket becomes the handle, the status is [Connecting], the
    retry count is 0 and the timer the hook held is no longer pending.
    The sockets constructed before are all still there. *)
Theorem reconnect_opens_fresh_socket (s : State) :
  let s' := reconnect s in
  List.length (sockets s') = S (List.length (sockets s)) /\
  sockets s' !! List.length (sockets s) = Some fresh_socket /\
  ws s' = Some (List.length (sockets s)) /\
  connectionStatus s' = Connecting /\
  reconnectAttempts s' = 0 /\
  lastMessage s' = lastMessage s /\
  forall t tm, reconnectTimeoutRef s = Some t -> timers s' !! t = Some tm ->
    timerState tm <> Pending.
Proof.
  cbv zeta. unfold reconnect.
  set (s1 := match reconnectTimeoutRef s with
             | Some t => clearTimeout t s
             | None => s
             end).
  assert (H1 : ws s1 = ws s /\ sockets s1 = sockets s /\
               lastMessage s1 = lastMessage s /\
               forall t tm, reconnectTimeoutRef s = Some t ->
                 timers s1 !! t = Some tm -> timerState tm <> Pending).
  { subst s1. destruct (reconnectTimeoutRef s) as [t|].
    - destruct (clearTimeout_frame s t) as (_ & Hm & Hw & _ & _ & Hs & _).
      repeat split; try assumption.
      intros t' tm [= <-]. unfold clearTimeout.
      destruct (timers s !! t) as [[d st]|] eqn:Ht; [|cbn; congruence].
      destruct st; cbn; try (rewrite Ht; intros [= <-]; discriminate).
      rewrite list_lookup_insert_eq by (eapply lookup_lt_Some, Ht).
      intros [= <-]. discriminate.
    - repeat split. discriminate. }
  destruct H1 as (Hws & Hso & Hmsg & Htim).
  set (s2 := set_reconnectAttempts 0 s1).
  set (s3 := match ws s2 with
             | Some sock => socket_close sock None s2
             | None => s2
             end).
  assert (H3 : ws s3 = ws s /\
               List.length (sockets s3) = List.length (sockets s) /\
               lastMessage s3 = lastMessage s /\ timers s3 = timers s1 /\
               reconnectAttempts s3 = 0 /\
               is_open (current_readyState s3) = false).
  { subst s3. change (ws s2) with (ws s1). rewrite Hws.
    destruct (ws s) as [i|] eqn:Hi.
    - destruct (socket_close_frame s2 i None)
        as (_ & Hm & Hw & _ & Ha & Ht & _ & Hl).
      cbv zeta in *. rewrite Hm, Hw, Ha, Ht, Hl.
      change (sockets s2) with (sockets s1). rewrite Hso.
      repeat split; try assumption.
      unfold current_readyState. rewrite Hw.
      change (ws s2) with (ws s1). rewrite Hws. cbn.
      unfold socket_close. change (sockets s2) with (sockets s1).
      destruct (sockets s1 !! i) as [[[] ? ?]|] eqn:Hsock; cbn;
        rewrite ?list_lookup_insert_eq by (eapply lookup_lt_Some, Hsock);
        rewrite ?Hsock; reflexivity.
    - change (sockets s2) with (sockets s1). rewrite Hso.
      repeat split; try assumption.
      unfold current_readyState. change (ws s2) with (ws s1).
      rewrite Hws. reflexivity. }
  destruct H3 as (Hws3 & Hlen3 & Hmsg3 & Htim3 & Hatt3 & Hopen3).
  unfold connect. rewrite Hopen3. cbn.
  rewrite length_app, Hlen3. cbn.
  repeat split; try assumption; try lia.
  - rewrite lookup_app_r by lia. rewrite Hlen3, Nat.sub_diag. reflexivity.
  - rewrite Htim3. exact Htim.
Qed.

(** X14.  A message sent while the socket of the channel is open goes
    out on that socket, after the frames sent before, and nothing else
    changes: two sends leave their two frames in the order of the
    calls. *)
Theorem send_to_open_socket_transmits (s : State) (m1 m2 : string) :
  current_readyState s = Some OPEN ->
  exists i sock,
    ws s = Some i /\ sockets s !! i = Some sock /\
    sendMessage m1 s
    = set_sockets
        (<[i := {| readyState := OPEN; sent := (sent sock ++ [m1])%list;
                   closeCode := closeCode sock |}]> (sockets s)) s /\
    sockets (sendMessage m2 (sendMessage m1 s))
    = <[i := {| readyState := OPEN; sent := (sent sock ++ [m1; m2])%list;
                closeCode := closeCode sock |}]> (sockets s).
Proof.
  intros Hopen. unfold current_readyState in Hopen.
  destruct (ws s) as [i|] eqn:Hws; [|discriminate]. cbn in Hopen.
  destruct (sockets s !! i) as [sock|] eqn:Hsock; [|discriminate].
  cbn in Hopen. injection Hopen as Hready.
  exists i, sock. split; [reflexivity|]. split; [exact Hsock|].
  assert (Hlt : (i < List.length (sockets s))%nat)
    by (eapply lookup_lt_Some, Hsock).
  assert (Hfirst : sendMessage m1 s
    = set_sockets
        (<[i := {| readyState := OPEN; sent := (sent sock ++ [m1])%list;
                   closeCode := closeCode sock |}]> (sockets s)) s).
  { unfold sendMessage, current_readyState. rewrite Hws. cbn.
    rewrite Hsock. cbn. rewrite Hready. cbn.
    unfold socket_send. rewrite Hsock, Hready. reflexivity. }
  split; [exact Hfirst|].
  rewrite Hfirst. unfold sendMessage, current_readyState. cbn.
  rewrite Hws. cbn. rewrite list_lookup_insert_eq by exact Hlt. cbn.
  unfold socket_send. cbn. rewrite list_lookup_insert_eq by exact Hlt. cbn.
  rewrite list_insert_insert_eq, <- app_assoc. reflexivity.
Qed.

Lemma send_to_open_socket_transmits_witness :
  exists s,
    run mount [Opened 0] = Some s /\
    sockets (sendMessage "b" (sendMessage "a" s))
    = [{| readyState := OPEN; sent := ["a"; "b"]; closeCode := None |}].
Proof.
  eexists. split; [vm_compute; reflexivity|].
  match goal with |- sockets (sendMessage _ (sendMessage _ ?s)) = _ =>
    destruct (send_to_open_socket_transmits s "a" "b" eq_refl)
      as (i & sock & Hws & Hsock & _ & Hsent)
  end.
  injection Hws as <-. injection Hsock as <-. exact Hsent.
Defined.

(** ** Invariants of the runs *)

Lemma connect_shape (s : State) :
  (is_open (current_readyState s) = true /\ connect s = s) \/
  (is_open (current_readyState s) = false /\
   connect s
   = set_ws (Some (List.length (sockets s)))
       (set_sockets (sockets s ++ [fresh_socket])%list
          (setConnectionStatus Connecting s))).
Proof.
  unfold connect. destruct (is_open _); [left|right]; split; reflexivity.
Qed.

Lemma timer_update_delays (l : list Timer) (t : nat) (d : Z)
    (st st' : TimerState) (P : Z -> Prop) :
  l !! t = Some {| delay := d; timerState := st |} ->
  Forall (fun tm => P (delay tm)) l ->
  Forall (fun tm => P (delay tm))
         (<[t := {| delay := d; timerState := st' |}]> l).
Proof.
  intros Ht Hall. apply Forall_insert; [exact Hall|].
  eapply Forall_lookup_1 in Hall; [|exact Ht]. exact Hall.
Qed.

Lemma backoff_values (n : Z) :
  0 <= n < 5 -> In (backoff n) [1000; 2000; 4000; 8000; 16000].
Proof.
  intros Hn.
  assert (n = 0 \/ n = 1 \/ n = 2 \/ n = 3 \/ n = 4) as
    [->|[->|[->|[->| ->]]]] by lia; vm_compute; tauto.
Qed.

Lemma clearTimeout_shape (t : nat) (s : State) :
  List.length (timers (clearTimeout t s)) = List.length (timers s) /\
  (delays_ok s -> delays_ok (clearTimeout t s)).
Proof.
  unfold clearTimeout, delays_ok.
  destruct (timers s !! t) as [[d []]|] eqn:Ht; cbn - [In]; try tauto.
  rewrite length_insert. split; [reflexivity|].
  apply (timer_update_delays (timers s) t d Pending Cleared
           (fun d => In d [1000; 2000; 4000; 8000; 16000]) Ht).
Qed.

Lemma cleared_shape (s : State) :
  let s1 := match reconnectTimeoutRef s with
            | Some t => clearTimeout t s
            | None => s
            end in
  connectionStatus s1 = connectionStatus s /\
  lastMessage s1 = lastMessage s /\ ws s1 = ws s /\
  reconnectTimeoutRef s1 = reconnectTimeoutRef s /\
  reconnectAttempts s1 = reconnectAttempts s /\
  sockets s1 = sockets s /\
  List.length (timers s1) = List.length (timers s) /\
  (delays_ok s -> delays_ok s1).
Proof.
  cbv zeta. destruct (reconnectTimeoutRef s) as [t|] eqn:Eref.
  - destruct (clearTimeout_frame s t) as (? & ? & ? & ? & ? & ? & _).
    destruct (clearTimeout_shape t s) as [? ?].
    repeat split; auto; congruence.
  - repeat split; auto.
Qed.

Lemma closed_shape (code : option Z) (s : State) :
  let s1 := match ws s with
            | Some sock => socket_close sock code s
            | None => s
            end in
  connectionStatus s1 = connectionStatus s /\
  lastMessage s1 = lastMessage s /\ ws s1 = ws s /\
  reconnectTimeoutRef s1 = reconnectTimeoutRef s /\
  reconnectAttempts s1 = reconnectAttempts s /\
  timers s1 = timers s /\
  List.length (sockets s1) = List.length (sockets s) /\
  is_open (current_readyState s1) = false.
Proof.
  cbv zeta. destruct (ws s) as [i|] eqn:Ews.
  - destruct (socket_close_frame s i code)
      as (? & ? & Hw & ? & ? & ? & _ & ?).
    repeat split; auto; try congruence.
    unfold current_readyState. cbv zeta in Hw. rewrite Hw, Ews. cbn.
    unfold socket_close.
    destruct (sockets s !! i) as [[[] ? ?]|] eqn:Hsock; cbn;
      rewrite ?list_lookup_insert_eq by (eapply lookup_lt_Some, Hsock);
      rewrite ?Hsock; reflexivity.
  - repeat split; auto. unfold current_readyState. rewrite Ews. reflexivity.
Qed.

Lemma reconnect_shape (s : State) :
  List.length (sockets (reconnect s)) = S (List.length (sockets s)) /\
  ws (reconnect s) = Some (List.length (sockets s)) /\
  reconnectTimeoutRef (reconnect s) = reconnectTimeoutRef s /\
  List.length (timers (reconnect s)) = List.length (timers s) /\
  (delays_ok s -> delays_ok (reconnect s)) /\
  reconnectAttempts (reconnect s) = 0.
Proof.
  unfold reconnect.
  destruct (cleared_shape s) as (_ & _ & Hw1 & Hr1 & _ & Hs1 & Hl1 & Hd1).
  cbv zeta in *.
  set (s1 := match reconnectTimeoutRef s with
             | Some t => clearTimeout t s
             | None => s
             end) in *.
  destruct (closed_shape None (set_reconnectAttempts 0 s1))
    as (_ & _ & Hw3 & Hr3 & Ha3 & Ht3 & Hl3 & Hopen3).
  cbv zeta in *.
  set (s3 := match ws (set_reconnectAttempts 0 s1) with
             | Some sock => socket_close sock None (set_reconnectAttempts 0 s1)
             | None => set_reconnectAttempts 0 s1
             end) in *.
  cbn in Hw3, Hr3, Ha3, Ht3, Hl3.
  destruct (connect_shape s3) as [[Hopen _]|[_ ->]]; [congruence|].
  cbn. rewrite length_app, Hl3, Hs1, Hr3, Hr1, Ht3, Hl1, Ha3. cbn.
  repeat split; auto; try lia.
  intros Hd. unfold delays_ok in *. cbn. rewrite Ht3. auto.
Qed.

Lemma cleanup_shape (s : State) :
  List.length (sockets (cleanup s)) = List.length (sockets s) /\
  ws (cleanup s) = ws s /\
  reconnectTimeoutRef (cleanup s) = reconnectTimeoutRef s /\
  List.length (timers (cleanup s)) = List.length (timers s) /\
  (delays_ok s -> delays_ok (cleanup s)) /\
  reconnectAttempts (cleanup s) = reconnectAttempts s.
Proof.
  unfold cleanup.
  destruct (cleared_shape s) as (_ & _ & Hw1 & Hr1 & Ha1 & Hs1 & Hl1 & Hd1).
  cbv zeta in *.
  set (s1 := match reconnectTimeoutRef s with
             | Some t => clearTimeout t s
             | None => s
             end) in *.
  destruct (closed_shape (Some 1000) s1)
    as (_ & _ & Hw3 & Hr3 & Ha3 & Ht3 & Hl3 & _).
  cbv zeta in *. rewrite Hl3, Hw3, Hr3, Ht3, Ha3.
  repeat split; auto; try congruence.
  intros Hd. unfold delays_ok in *. rewrite Ht3. auto.
Qed.

Lemma step_well_formed (s s' : State) (a : Action) :
  well_formed s /\ delays_ok s -> step s a = Some s' ->
  well_formed s' /\ delays_ok s'.
Proof.
  intros [(Hne & Hws & Href & Hatt) Hdel] Hstep.
  assert (Hgrow : forall (l : list WebSocket) x,
            pred (List.length (l ++ [x])) = List.length l)
    by (intros; rewrite length_app; cbn; lia).
  assert (Hins : forall (l : list WebSocket) i x,
            l <> [] -> <[i := x]> l <> [])
    by (intros [|] ? ? ?; [congruence|destruct i; discriminate]).
  destruct a as [i|i|i c|i|i event|t|message| |]; cbn in Hstep.
  - (* Opened *)
    destruct (socket_readyState s i) as [[]|]; try discriminate.
    injection Hstep as <-. unfold set_readyState.
    destruct (sockets s !! i); unfold well_formed, delays_ok; cbn;
      rewrite ?length_insert; repeat split; auto; lia.
  - (* Closing *)
    destruct (socket_readyState s i) as [[]|]; try discriminate.
    injection Hstep as <-. unfold set_readyState.
    destruct (sockets s !! i); unfold well_formed, delays_ok; cbn;
      rewrite ?length_insert; repeat split; auto; lia.
  - (* Closed *)
    assert (Hs' : s' = onclose c (set_readyState i CLOSED s))
      by (destruct (socket_readyState s i) as [[]|]; congruence).
    subst s'. clear Hstep.
    destruct (set_readyState_frame s i CLOSED)
      as (_ & _ & Hw & Hr & Ha & Ht & _).
    assert (Hso : sockets (set_readyState i CLOSED s) <> [] /\
                  List.length (sockets (set_readyState i CLOSED s))
                  = List.length (sockets s)).
    { unfold set_readyState. destruct (sockets s !! i); cbn;
        rewrite ?length_insert; auto. }
    destruct Hso as [Hso1 Hso2].
    set (s1 := set_readyState i CLOSED s) in *.
    unfold onclose. cbn [reconnectAttempts console_write setConnectionStatus].
    destruct (negb (c =? 1000) && (reconnectAttempts s1 <? maxReconnectAttempts))
      eqn:Hretry; unfold well_formed, delays_ok; cbn.
    + apply andb_true_iff in Hretry as [_ Hlt]. apply Z.ltb_lt in Hlt.
      unfold maxReconnectAttempts in Hlt.
      rewrite Hso2, Hw, Ha, Ht, length_app. cbn.
      repeat split; auto.
      * right. split; [destruct (timers s); discriminate|].
        f_equal. lia.
      * apply Forall_app. split; [exact Hdel|].
        constructor; [|constructor]. cbn. apply backoff_values. lia.
    + rewrite Hso2, Hw, Hr, Ha, Ht. repeat split; auto.
  - (* Failed *)
    destruct (socket_readyState s i); [|discriminate].
    injection Hstep as <-. repeat split; auto.
  - (* Received *)
    destruct (socket_readyState s i) as [[]|]; try discriminate.
    injection Hstep as <-. repeat split; auto.
  - (* TimedOut *)
    destruct (timers s !! t) as [[d []]|] eqn:Ht; try discriminate.
    injection Hstep as <-. unfold reconnect_callback.
    set (s1 := set_reconnectAttempts _ _).
    assert (Htim : timers s1 <> [] /\
                   List.length (timers s1) = List.length (timers s) /\
                   delays_ok s1).
    { subst s1. cbn. rewrite length_insert. repeat split.
      - destruct (timers s); [discriminate|destruct t; discriminate].
      - unfold delays_ok. cbn - [In].
        apply (timer_update_delays (timers s) t d Pending Fired
                 (fun d => In d [1000; 2000; 4000; 8000; 16000]) Ht Hdel). }
    destruct Htim as (Ht1 & Ht2 & Ht3).
    assert (Href1 : reconnectTimeoutRef s1
                    = Some (pred (List.length (timers s1)))).
    { rewrite Ht2. destruct Href as [[_ E]|[_ E]]; [|exact E].
      rewrite E in Ht. discriminate. }
    destruct (connect_shape s1) as [[_ ->]|[_ ->]];
      unfold well_formed, delays_ok in *; cbn - [s1];
      rewrite ?Hgrow; repeat split; auto;
      try (subst s1; cbn; lia);
      try (destruct (sockets s1); discriminate).
  - (* Send *)
    injection Hstep as <-. unfold sendMessage.
    destruct (is_open _); [|repeat split; auto].
    destruct (ws s) as [i|] eqn:Hi; [|discriminate].
    unfold socket_send.
    destruct (sockets s !! i) as [[[] ? ?]|]; unfold well_formed, delays_ok;
      cbn; rewrite ?length_insert, ?Hi; repeat split; auto.
  - (* Reconnect *)
    injection Hstep as <-.
    destruct (reconnect_shape s) as (Hl & Hw & Hr & Ht & Hd & Ha).
    unfold well_formed. rewrite Hl, Hw, Hr, Ht, Ha. cbn [pred].
    repeat split; auto; try lia.
    + intros E. rewrite E in Hl. discriminate.
    + destruct Href as [[E1 E2]|[E1 E2]]; [left|right]; split; auto.
      * destruct (timers (reconnect s)); [reflexivity|].
        rewrite E2 in Ht. discriminate.
      * intros E. rewrite E in Ht. destruct (timers s); [congruence|].
        discriminate.
  - (* Unmount *)
    injection Hstep as <-.
    destruct (cleanup_shape s) as (Hl & Hw & Hr & Ht & Hd & Ha).
    unfold well_formed. rewrite Hl, Hw, Hr, Ht, Ha.
    repeat split; auto.
    + intros E. rewrite E in Hl. destruct (sockets s); [congruence|].
      discriminate.
    + destruct Href as [[E1 E2]|[E1 E2]]; [left|right]; split; auto.
      * destruct (timers (cleanup s)); [reflexivity|].
        rewrite E2 in Ht. discriminate.
      * intros E. rewrite E in Ht. destruct (timers s); [congruence|].
        discriminate.
Qed.

Lemma run_well_formed (l : list Action) (s s' : State) :
  well_formed s /\ delays_ok s -> run s l = Some s' ->
  well_formed s' /\ delays_ok s'.
Proof.
  revert s. induction l as [|a l IH]; intros s Hs Hrun; cbn in Hrun.
  - injection Hrun as <-. exact Hs.
  - destruct (step s a) as [s1|] eqn:Hstep; [|discriminate].
    eapply IH; [|exact Hrun]. eapply step_well_formed; eauto.
Qed.

Lemma mount_well_formed : well_formed mount /\ delays_ok mount.
Proof.
  split; [|constructor].
  repeat split; [discriminate|left; split; reflexivity|reflexivity].
Qed.

(** X15.  In every run of a mounted hook the handle refers to the socket
    constructed last and the timer ref to the timer set last, if any;
    the retry count is never negative. *)
Theorem handle_is_latest_socket (l : list Action) (s : State) :
  run mount l = Some s ->
  sockets s <> [] /\
  ws s = Some (pred (List.length (sockets s))) /\
  (reconnectTimeoutRef s = None /\ timers s = [] \/
   timers s <> [] /\
   reconnectTimeoutRef s = Some (pred (List.length (timers s)))) /\
  0 <= reconnectAttempts s.
Proof.
  intros Hrun. apply (run_well_formed l mount s mount_well_formed Hrun).
Qed.

(** X16.  Every timer set in a run of a mounted hook has a delay of
    1000, 2000, 4000, 8000 or 16000 milliseconds: retries stop before the
    cap of 30000 is reached. *)
Theorem delays_below_cap (l : list Action) (s : State) (t : Timer) :
  run mount l = Some s -> In t (timers s) ->
  In (delay t) [1000; 2000; 4000; 8000; 16000] /\ delay t < 30000.
Proof.
  intros Hrun Hin.
  destruct (run_well_formed l mount s mount_well_formed Hrun) as [_ Hd].
  unfold delays_ok in Hd. rewrite List.Forall_forall in Hd.
  specialize (Hd t Hin). split; [exact Hd|].
  cbn in Hd. intuition lia.
Qed.

Lemma handle_is_latest_socket_witness :
  exists s,
    run mount [Opened 0; Reconnect; Closed 0 1005; TimedOut 0] = Some s /\
    ws s = Some 2%nat /\ List.length (sockets s) = 3%nat.
Proof.
  eexists. split; [vm_compute; reflexivity|].
  split; [|reflexivity].
  refine (proj1 (proj2 (handle_is_latest_socket
    [Opened 0; Reconnect; Closed 0 1005; TimedOut 0] _ _))).
  vm_compute. reflexivity.
Defined.

Lemma delays_below_cap_witness :
  exists s t,
    run mount [Closed 0 1006; TimedOut 0; Closed 1 1006] = Some s /\
    In t (timers s) /\ delay t = 2000 /\ delay t < 30000.
Proof.
  eexists. exists {| delay := 2000; timerState := Pending |}.
  split; [vm_compute; reflexivity|].
  match goal with |- In ?t (timers ?s) /\ _ =>
    assert (Hin : In t (timers s)) by (right; left; reflexivity);
    assert (Hrun : run mount [Closed 0 1006; TimedOut 0; Closed 1 1006]
                   = Some s) by (vm_compute; reflexivity);
    split; [exact Hin|]; split; [reflexivity|];
    exact (proj2 (delays_below_cap _ s t Hrun Hin))
  end.
Defined.

(** ** A hook that is only sent on *)

Lemma mount_managed : managed mount.
Proof.
  exists [], fresh_socket. repeat split; try reflexivity.
  - constructor.
  - destruct t; discriminate.
  - destruct t; discriminate.
  - discriminate.
Qed.

Lemma managed_readyState (s : State) (closed : list WebSocket)
    (cur : WebSocket) (i : nat) :
  sockets s = (closed ++ [cur])%list ->
  Forall (fun sock => readyState sock = CLOSED) closed ->
  socket_readyState s i = Some CLOSED \/
  socket_readyState s i = None \/
  (i = List.length closed /\ socket_readyState s i = Some (readyState cur)).
Proof.
  intros Hso Hclosed. unfold socket_readyState. rewrite Hso.
  destruct (Nat.lt_ge_cases i (List.length closed)) as [Hlt|Hge].
  - left. rewrite lookup_app_l by exact Hlt.
    destruct (lookup_lt_is_Some_2 _ _ Hlt) as [sock Hsock].
    rewrite Hsock. cbn. f_equal.
    eapply Forall_lookup_1 in Hclosed; eauto.
  - right. rewrite lookup_app_r by exact Hge.
    destruct (i - List.length closed)%nat as [|n] eqn:E; cbn.
    + right. split; [lia|reflexivity].
    + left. reflexivity.
Qed.

Lemma managed_set_last (s : State) (closed : list WebSocket)
    (cur : WebSocket) (r : ReadyState) :
  sockets s = (closed ++ [cur])%list ->
  sockets (set_readyState (List.length closed) r s)
  = (closed ++ [{| readyState := r; sent := sent cur;
                   closeCode := closeCode cur |}])%list.
Proof.
  intros Hso. unfold set_readyState. rewrite Hso.
  rewrite lookup_app_r by lia. rewrite Nat.sub_diag. cbn.
  rewrite insert_app_r_alt by lia.
  rewrite Nat.sub_diag. reflexivity.
Qed.

Ltac managed_goals := split; [|split; [|split; [|split]]].

Lemma step_managed (s s' : State) (a : Action) :
  managed s -> host_or_send a = true -> step s a = Some s' -> managed s'.
Proof.
  intros (closed & cur & Hso & Hclosed & Hws & Htim & Hconn) Ha Hstep.
  destruct a as [i|i|i c|i|i event|t|message| |]; try discriminate;
    cbn in Hstep.
  - (* Opened *)
    destruct (managed_readyState s closed cur i Hso Hclosed)
      as [E|[E|[-> E]]]; rewrite E in Hstep; try discriminate.
    destruct (readyState cur) eqn:Hcur; try discriminate.
    injection Hstep as <-.
    exists closed, {| readyState := OPEN; sent := sent cur;
                      closeCode := closeCode cur |}.
    pose proof (managed_set_last s closed cur OPEN Hso) as Hso'.
    destruct (set_readyState_frame s (List.length closed) OPEN)
      as (_ & _ & Hw & Hr & _ & Ht & _).
    cbn. rewrite Hso', Hw, Ht, Hr. managed_goals; auto.
    intros k tm H1 H2. destruct (Htim k tm H1 H2) as [_ Hc]. congruence.
  - (* Closing *)
    destruct (managed_readyState s closed cur i Hso Hclosed)
      as [E|[E|[-> E]]]; rewrite E in Hstep; try discriminate.
    destruct (readyState cur) eqn:Hcur; try discriminate.
    injection Hstep as <-.
    exists closed, {| readyState := CLOSING; sent := sent cur;
                      closeCode := closeCode cur |}.
    pose proof (managed_set_last s closed cur CLOSING Hso) as Hso'.
    destruct (set_readyState_frame s (List.length closed) CLOSING)
      as (Hst & _ & Hw & Hr & _ & Ht & _).
    cbn. rewrite Hso', Hw, Ht, Hr. managed_goals; auto.
    intros k tm H1 H2. destruct (Htim k tm H1 H2) as [_ Hc]. congruence.
  - (* Closed *)
    assert (Hs' : s' = onclose c (set_readyState i CLOSED s) /\
                  socket_readyState s i <> Some CLOSED /\
                  socket_readyState s i <> None)
      by (destruct (socket_readyState s i) as [[]|];
          repeat split; congruence).
    destruct Hs' as (-> & Hn1 & Hn2). clear Hstep.
    destruct (managed_readyState s closed cur i Hso Hclosed)
      as [E|[E|[-> E]]]; try contradiction.
    assert (Hcur : readyState cur <> CLOSED) by congruence.
    assert (Hnone : forall k tm, timers s !! k = Some tm ->
                      timerState tm <> Pending).
    { intros k tm H1 H2. destruct (Htim k tm H1 H2) as [_ Hc].
      contradiction. }
    pose proof (managed_set_last s closed cur CLOSED Hso) as Hso'.
    destruct (set_readyState_frame s (List.length closed) CLOSED)
      as (_ & _ & Hw & Hr & Hatt & Ht & _).
    set (s1 := set_readyState (List.length closed) CLOSED s) in *.
    exists closed, {| readyState := CLOSED; sent := sent cur;
                      closeCode := closeCode cur |}.
    unfold onclose.
    cbn [reconnectAttempts console_write setConnectionStatus].
    destruct (negb (c =? 1000)
              && (reconnectAttempts s1 <? maxReconnectAttempts));
      cbn; rewrite Hso', Hw, Ht; managed_goals; auto; try discriminate.
    + intros k tm H1 H2.
      destruct (Nat.lt_ge_cases k (List.length (timers s))) as [Hlt|Hge].
      * rewrite lookup_app_l in H1 by exact Hlt.
        exfalso. eapply Hnone; eauto.
      * rewrite lookup_app_r in H1 by exact Hge.
        destruct (k - List.length (timers s))%nat eqn:E1; [|discriminate].
        split; [f_equal; lia|reflexivity].
    + intros k tm H1 H2. exfalso. eapply Hnone; eauto.
  - (* Failed *)
    destruct (socket_readyState s i); [|discriminate].
    injection Hstep as <-. exists closed, cur. cbn.
    managed_goals; auto. discriminate.
  - (* Received *)
    destruct (socket_readyState s i) as [[]|]; try discriminate.
    injection Hstep as <-. exists closed, cur. cbn. managed_goals; auto.
  - (* TimedOut *)
    destruct (timers s !! t) as [[d []]|] eqn:Ht; try discriminate.
    injection Hstep as <-.
    destruct (Htim t _ Ht eq_refl) as [Href Hcur].
    assert (Hnone : forall k tm,
              <[t := {| delay := d; timerState := Fired |}]> (timers s) !! k
              = Some tm -> timerState tm <> Pending).
    { intros k tm H1 H2. destruct (Nat.eq_dec k t) as [->|Hne].
      - rewrite list_lookup_insert_eq in H1
          by (eapply lookup_lt_Some, Ht).
        injection H1 as <-. discriminate.
      - rewrite list_lookup_insert_ne in H1 by congruence.
        destruct (Htim k tm H1 H2) as [E _]. congruence. }
    unfold reconnect_callback.
    set (s1 := set_reconnectAttempts _ _).
    assert (Hopen : is_open (current_readyState s1) = false).
    { unfold current_readyState. subst s1. cbn. rewrite Hws. cbn.
      rewrite Hso, lookup_app_r by lia. rewrite Nat.sub_diag. cbn.
      rewrite Hcur. reflexivity. }
    destruct (connect_shape s1) as [[E _]|[_ ->]]; [congruence|].
    exists (closed ++ [cur])%list, fresh_socket. subst s1. cbn.
    rewrite Hso. managed_goals; auto.
    + apply Forall_app. split; [exact Hclosed|].
      constructor; [exact Hcur|constructor].
    + intros k tm H1 H2. exfalso. eapply Hnone; eauto.
    + discriminate.
  - (* Send *)
    injection Hstep as <-. unfold sendMessage.
    destruct (is_open (current_readyState s)) eqn:Hopen;
      [|exists closed, cur; cbn; managed_goals; auto].
    assert (Hcur : readyState cur = OPEN).
    { unfold current_readyState in Hopen. rewrite Hws in Hopen.
      cbn in Hopen. rewrite Hso, lookup_app_r in Hopen by lia.
      rewrite Nat.sub_diag in Hopen. cbn in Hopen.
      destruct (readyState cur); try discriminate. reflexivity. }
    rewrite Hws. unfold socket_send.
    rewrite Hso, lookup_app_r by lia. rewrite Nat.sub_diag. cbn.
    rewrite Hcur.
    exists closed, {| readyState := OPEN; sent := (sent cur ++ [message])%list;
                      closeCode := closeCode cur |}.
    cbn. rewrite insert_app_r_alt by lia. rewrite Nat.sub_diag. cbn.
    managed_goals; auto.
    intros k tm H1 H2. destruct (Htim k tm H1 H2) as [Hr Hc].
    split; [exact Hr|congruence].
Qed.

Lemma run_managed (l : list Action) (s s' : State) :
  managed s -> forallb host_or_send l = true -> run s l = Some s' ->
  managed s'.
Proof.
  revert s. induction l as [|a l IH]; intros s Hs Hl Hrun; cbn in *.
  - injection Hrun as <-. exact Hs.
  - apply andb_true_iff in Hl as [Ha Hl].
    destruct (step s a) as [s1|] eqn:Hstep; [|discriminate].
    eapply IH; [|exact Hl|exact Hrun]. eapply step_managed; eauto.
Qed.

(** X17.  As long as the component only sends (no [reconnect], no
    unmounting), under the status [Connected] the socket of the channel
    is open or in the closing handshake the peer has started.  A message
    sent on seeing that status is transmitted in the first case; in the
    second it is dropped with a warning. *)
Theorem connected_socket_open_or_closing (l : list Action) (s : State)
    (message : string) :
  forallb host_or_send l = true ->
  run mount l = Some s ->
  connectionStatus s = Connected ->
  (current_readyState s = Some OPEN /\
   sockets (sendMessage message s) <> sockets s) \/
  (current_readyState s = Some CLOSING /\
   sockets (sendMessage message s) = sockets s /\
   console (sendMessage message s)
   = (console s ++ ["WebSocket is not connected"])%list).
Proof.
  intros Hl Hrun Hconn.
  destruct (run_managed l mount s mount_managed Hl Hrun)
    as (closed & cur & Hso & _ & Hws & _ & Hopen).
  assert (Hready : current_readyState s = Some (readyState cur)).
  { unfold current_readyState. rewrite Hws. cbn.
    rewrite Hso, lookup_app_r by lia. rewrite Nat.sub_diag. reflexivity. }
  destruct (Hopen Hconn) as [Hcur|Hcur]; rewrite Hcur in Hready.
  - left. split; [exact Hready|].
    unfold sendMessage. rewrite Hready, Hws. cbn. unfold socket_send.
    rewrite Hso, lookup_app_r by lia. rewrite Nat.sub_diag. cbn.
    rewrite Hcur. cbn. rewrite insert_app_r_alt by lia.
    rewrite Nat.sub_diag. cbn. intros E. apply app_inv_head in E.
    assert (Hsent : (sent cur ++ [message])%list = sent cur).
    { injection E as E. apply (f_equal sent) in E. exact E. }
    apply (f_equal (@List.length string)) in Hsent.
    rewrite length_app in Hsent. cbn in Hsent. lia.
  - right. split; [exact Hready|].
    unfold sendMessage. rewrite Hready. cbn. split; reflexivity.
Qed.

Lemma connected_socket_open_or_closing_witness :
  exists s,
    run mount [Opened 0; Closing 0] = Some s /\
    connectionStatus s = Connected /\
    current_readyState s = Some CLOSING /\
    sockets (sendMessage "q" s) = sockets s.
Proof.
  eexists. split; [vm_compute; reflexivity|]. split; [reflexivity|].
  match goal with |- current_readyState ?s = _ /\ _ =>
    assert (Hrun : run mount [Opened 0; Closing 0] = Some s)
      by (vm_compute; reflexivity);
    assert (Hconn : connectionStatus s = Connected) by reflexivity;
    destruct (connected_socket_open_or_closing
                [Opened 0; Closing 0] s "q" eq_refl Hrun Hconn)
      as [[Hopen _]|(Hclosing & Hsame & _)];
    [vm_compute in Hopen; discriminate|split; [exact Hclosing|exact Hsame]]
  end.
Defined.

(** ** Disposal *)

Lemma cleanup_settles (s : State) :
  managed s ->
  settled (cleanup s) /\
  List.length (sockets (cleanup s)) = List.length (sockets s).
Proof.
  intros (closed & cur & Hso & Hclosed & Hws & Htim & _).
  destruct (cleanup_shape s) as (Hlen & _).
  split; [|exact Hlen]. unfold cleanup.
  destruct (cleared_shape s) as (_ & _ & Hw1 & _ & _ & Hs1 & _ & _).
  cbv zeta in *.
  set (s1 := match reconnectTimeoutRef s with
             | Some t => clearTimeout t s
             | None => s
             end) in *.
  assert (Hquiet : Forall (fun t => timerState t <> Pending) (timers s1)).
  { apply Forall_lookup_2. intros k tm Hk Hpending. subst s1.
    destruct (reconnectTimeoutRef s) as [t|] eqn:Href.
    - unfold clearTimeout in Hk.
      destruct (timers s !! t) as [[d st]|] eqn:Ht.
      + destruct st; cbn in Hk;
          try (destruct (Htim k tm Hk Hpending) as [E _];
               injection E as ->; rewrite Ht in Hk; injection Hk as <-;
               discriminate).
        destruct (Nat.eq_dec k t) as [->|Hne].
        * rewrite list_lookup_insert_eq in Hk
            by (eapply lookup_lt_Some, Ht).
          injection Hk as <-. discriminate.
        * rewrite list_lookup_insert_ne in Hk by congruence.
          destruct (Htim k tm Hk Hpending) as [E _]. congruence.
      + destruct (Htim k tm Hk Hpending) as [E _]. congruence.
    - destruct (Htim k tm Hk Hpending) as [E _]. congruence. }
  rewrite Hw1, Hws. unfold socket_close. rewrite Hs1, Hso.
  rewrite lookup_app_r by lia. rewrite Nat.sub_diag. cbn.
  assert (Hold : Forall (fun sock => readyState sock = CLOSING \/
                                     readyState sock = CLOSED) closed)
    by (eapply Forall_impl; [exact Hclosed|cbn; auto]).
  destruct (readyState cur) eqn:Hcur; split; cbn;
    rewrite ?Hs1, ?Hso, ?insert_app_r_alt, ?Nat.sub_diag by lia; cbn;
    try exact Hquiet;
    apply Forall_app; (split; [exact Hold|]);
    (constructor; [cbn; auto|constructor]).
Qed.

Lemma settled_step (s s' : State) (a : Action) :
  settled s -> host_action a = true -> normal_closes [a] = true ->
  step s a = Some s' ->
  settled s' /\ List.length (sockets s') = List.length (sockets s).
Proof.
  intros [Hsock Htim] Ha Hnormal Hstep.
  assert (Hstate : forall i, socket_readyState s i = None \/
                     socket_readyState s i = Some CLOSING \/
                     socket_readyState s i = Some CLOSED).
  { intros i. unfold socket_readyState.
    destruct (sockets s !! i) as [sock|] eqn:Hi; [|left; reflexivity].
    eapply Forall_lookup_1 in Hsock; [|exact Hi]. cbn.
    destruct Hsock as [-> | ->]; auto. }
  destruct a as [i|i|i c|i|i event|t|message| |]; try discriminate;
    cbn in Hstep.
  - destruct (Hstate i) as [E|[E|E]]; rewrite E in Hstep; discriminate.
  - destruct (Hstate i) as [E|[E|E]]; rewrite E in Hstep; discriminate.
  - cbn in Hnormal. rewrite andb_true_r in Hnormal.
    assert (Hs' : s' = onclose c (set_readyState i CLOSED s))
      by (destruct (socket_readyState s i) as [[]|]; congruence).
    subst s'. unfold onclose. rewrite Hnormal. cbn.
    destruct (set_readyState_frame s i CLOSED) as (_ & _ & _ & _ & _ & Ht & _).
    unfold settled. cbn. rewrite Ht. unfold set_readyState.
    destruct (sockets s !! i) as [sock|]; cbn;
      rewrite ?length_insert; repeat split; auto.
    apply Forall_insert; [exact Hsock|]. cbn. auto.
  - destruct (socket_readyState s i); [|discriminate].
    injection Hstep as <-. split; [split; assumption|reflexivity].
  - destruct (Hstate i) as [E|[E|E]]; rewrite E in Hstep; discriminate.
  - destruct (timers s !! t) as [[d st]|] eqn:Ht; [|discriminate].
    eapply Forall_lookup_1 in Htim; [|exact Ht]. cbn in Htim.
    destruct st; congruence.
Qed.

Lemma settled_run (l : list Action) (s s' : State) :
  settled s -> forallb host_action l = true -> normal_closes l = true ->
  run s l = Some s' ->
  List.length (sockets s') = List.length (sockets s).
Proof.
  revert s. induction l as [|a l IH]; intros s Hs Hl Hn Hrun; cbn in *.
  - congruence.
  - apply andb_true_iff in Hl as [Ha Hl].
    apply andb_true_iff in Hn as [Hna Hn].
    destruct (step s a) as [s1|] eqn:Hstep; [|discriminate].
    destruct (settled_step s s1 a Hs Ha) as [Hs1 <-]; auto.
    cbn. rewrite Hna. reflexivity.
Qed.

(** X18.  A component that only sent and is then unmounted makes no
    further connection attempt, provided the host reports the closure of
    its socket with the code 1000: whatever the host does next, no socket
    is constructed. *)
Theorem unmount_is_final_when_closes_are_normal (l1 l2 : list Action)
    (s1 s2 : State) :
  forallb host_or_send l1 = true ->
  run mount l1 = Some s1 ->
  forallb host_action l2 = true ->
  normal_closes l2 = true ->
  run (cleanup s1) l2 = Some s2 ->
  List.length (sockets s2) = List.length (sockets s1).
Proof.
  intros Hl1 Hrun1 Hl2 Hn Hrun2.
  pose proof (run_managed l1 mount s1 mount_managed Hl1 Hrun1) as Hm.
  destruct (cleanup_settles s1 Hm) as [Hsettled <-].
  eapply settled_run; eauto.
Qed.

Lemma unmount_is_final_when_closes_are_normal_witness :
  exists s1 s2,
    run mount [Opened 0; Send "q"] = Some s1 /\
    run (cleanup s1) [Closed 0 1000] = Some s2 /\
    List.length (sockets s2) = 1%nat.
Proof.
  eexists. eexists. split; [vm_compute; reflexivity|].
  split; [vm_compute; reflexivity|].
  match goal with |- List.length (sockets ?s2) = _ =>
    exact (unmount_is_final_when_closes_are_normal
             [Opened 0; Send "q"] [Closed 0 1000]
             {| connectionStatus := Connected; lastMessage := None;
                ws := Some 0%nat; reconnectTimeoutRef := None;
                reconnectAttempts := 0;
                sockets := [{| readyState := OPEN; sent := ["q"];
                               closeCode := None |}];
                timers := []; console := ["WebSocket connected"] |}
             s2 eq_refl eq_refl eq_refl eq_refl eq_refl)
  end.
Defined.

(** ** Connection attempts *)

Lemma step_sockets (s s' : State) (a : Action) :
  step s a = Some s' ->
  (List.length (sockets s) <= List.length (sockets s')
   <= List.length (sockets s) + connecting_actions [a])%nat.
Proof.
  assert (Hset : forall i r,
            List.length (sockets (set_readyState i r s))
            = List.length (sockets s)).
  { intros i r. unfold set_readyState.
    destruct (sockets s !! i); cbn; rewrite ?length_insert; reflexivity. }
  destruct a as [i|i|i c|i|i event|t|message| |]; cbn; intros Hstep.
  - destruct (socket_readyState s i) as [[]|]; try discriminate.
    injection Hstep as <-. cbn. rewrite Hset. lia.
  - destruct (socket_readyState s i) as [[]|]; try discriminate.
    injection Hstep as <-. cbn. rewrite Hset. lia.
  - assert (Hs' : s' = onclose c (set_readyState i CLOSED s))
      by (destruct (socket_readyState s i) as [[]|]; congruence).
    subst s'. unfold onclose. destruct (_ && _); cbn; rewrite Hset; lia.
  - destruct (socket_readyState s i); [|discriminate].
    injection Hstep as <-. cbn. lia.
  - destruct (socket_readyState s i) as [[]|]; try discriminate.
    injection Hstep as <-. cbn. lia.
  - destruct (timers s !! t) as [[d []]|]; try discriminate.
    injection Hstep as <-. unfold reconnect_callback.
    match goal with |- context [connect ?x] =>
      destruct (connect_shape x) as [[_ ->]|[_ ->]]
    end; cbn; rewrite ?length_app; cbn; lia.
  - injection Hstep as <-. unfold sendMessage.
    destruct (is_open _); [|cbn; lia].
    destruct (ws s) as [i|]; [|lia]. unfold socket_send.
    destruct (sockets s !! i) as [[[] ? ?]|]; cbn;
      rewrite ?length_insert; lia.
  - injection Hstep as <-. destruct (reconnect_shape s) as (-> & _). lia.
  - injection Hstep as <-. destruct (cleanup_shape s) as (-> & _). lia.
Qed.

(** X19.  Sockets are never dropped, and a run constructs at most one
    socket for each timer that fires and each call of [reconnect]: no
    other event or call opens a connection. *)
Theorem sockets_bounded_by_attempts (l : list Action) (s s' : State) :
  run s l = Some s' ->
  (List.length (sockets s) <= List.length (sockets s')
   <= List.length (sockets s) + connecting_actions l)%nat.
Proof.
  revert s. induction l as [|a l IH]; intros s Hrun; cbn in Hrun.
  - injection Hrun as <-. cbn. lia.
  - destruct (step s a) as [s1|] eqn:Hstep; [|discriminate].
    specialize (IH s1 Hrun). apply step_sockets in Hstep.
    unfold connecting_actions in *. cbn [List.filter] in *.
    destruct a; cbn [List.length] in *; lia.
Qed.

Lemma sockets_bounded_by_attempts_witness :
  exists s',
    run mount [Opened 0; Send "q"; Closed 0 1006; TimedOut 0; Opened 1]
    = Some s' /\
    (1 <= List.length (sockets s') <= 2)%nat.
Proof.
  eexists. split; [vm_compute; reflexivity|].
  match goal with |- (_ <= List.length (sockets ?s') <= _)%nat =>
    exact (sockets_bounded_by_attempts
             [Opened 0; Send "q"; Closed 0 1006; TimedOut 0; Opened 1]
             mount s' eq_refl)
  end.
Defined.

Lemma clearTimeout_twice (t : nat) (s : State) :
  clearTimeout t (clearTimeout t s) = clearTimeout t s.
Proof.
  unfold clearTimeout at 2 3.
  destruct (timers s !! t) as [[d st]|] eqn:Ht.
  - destruct st; try (unfold clearTimeout; rewrite Ht; reflexivity).
    unfold clearTimeout. cbn.
    rewrite list_lookup_insert_eq by (eapply lookup_lt_Some, Ht).
    reflexivity.
  - unfold clearTimeout. rewrite Ht. reflexivity.
Qed.

Lemma socket_close_twice (i : nat) (code code' : option Z) (s : State) :
  socket_close i code' (socket_close i code s) = socket_close i code s.
Proof.
  unfold socket_close at 2 3.
  destruct (sockets s !! i) as [sock|] eqn:Hi.
  - destruct (readyState sock) eqn:Hr;
      try (unfold socket_close; rewrite Hi, Hr; reflexivity);
      unfold socket_close; cbn;
      rewrite list_lookup_insert_eq by (eapply lookup_lt_Some, Hi);
      reflexivity.
  - unfold socket_close. rewrite Hi. reflexivity.
Qed.

Lemma clearTimeout_socket_close (t i : nat) (code : option Z) (s : State) :
  clearTimeout t (socket_close i code s)
  = socket_close i code (clearTimeout t s).
Proof.
  unfold clearTimeout, socket_close.
  destruct (sockets s !! i) as [[[] ? ?]|] eqn:Hi;
    destruct (timers s !! t) as [[d []]|] eqn:Ht; cbn;
    rewrite ?Hi, ?Ht; reflexivity.
Qed.

(** X20.  The cleanup is idempotent: running it a second time changes
    nothing, the timer being cleared and the socket closing already. *)
Theorem cleanup_idempotent (s : State) : cleanup (cleanup s) = cleanup s.
Proof.
  destruct (cleanup_shape s) as (_ & Hw & Hr & _).
  assert (Hcleanup : cleanup s
                     = match ws s with
                       | Some i =>
                           socket_close i (Some 1000)
                             match reconnectTimeoutRef s with
                             | Some t => clearTimeout t s
                             | None => s
                             end
                       | None =>
                           match reconnectTimeoutRef s with
                           | Some t => clearTimeout t s
                           | None => s
                           end
                       end).
  { unfold cleanup. destruct (cleared_shape s) as (_ & _ & -> & _).
    reflexivity. }
  set (c := cleanup s) in *.
  unfold cleanup. destruct (cleared_shape c) as (_ & _ & -> & _).
  rewrite Hr, Hw. rewrite Hcleanup. clear.
  destruct (reconnectTimeoutRef s) as [t|]; destruct (ws s) as [i|].
  - rewrite clearTimeout_socket_close, clearTimeout_twice.
    apply socket_close_twice.
  - apply clearTimeout_twice.
  - apply socket_close_twice.
  - reflexivity.
Qed.

(** * Properties of the query page *)

Import QueryInterface.

(** X21.  As long as the component only sends, a question that is not
    blank never leaves by both ways, and it leaves by one of them unless
    the peer has started to close the socket.  When the status is
    [Connected] and the socket of the channel is open, its JSON text is
    appended to the frames of that socket and no HTTP request is made.
    When the status is [Connected] and the socket is closing, the
    question is neither transmitted nor handed to the HTTP request.
    When the status is not [Connected], one HTTP request is queued and
    the channel is left as it was. *)
Theorem question_routes (l : list Action) (page : Page) :
  forallb host_or_send l = true ->
  run mount l = Some (channel page) ->
  String_trim (input page) <> "" ->
  let page' := handleExecuteQuery page in
  let request := {| question := String_trim (input page);
                    include_explanation := true; max_results := 100 |} in
  isExecuting page' = true /\
  ((connectionStatus (channel page) = Connected /\
    current_readyState (channel page) = Some OPEN /\
    mutations page' = mutations page /\
    exists i sock,
      ws (channel page) = Some i /\
      sockets (channel page) !! i = Some sock /\
      sockets (channel page')
      = <[i := {| readyState := OPEN;
                  sent := (sent sock ++ [stringify_request request])%list;
                  closeCode := closeCode sock |}]> (sockets (channel page)))
   \/
   (connectionStatus (channel page) = Connected /\
    current_readyState (channel page) = Some CLOSING /\
    mutations page' = mutations page /\
    sockets (channel page') = sockets (channel page))
   \/
   (connectionStatus (channel page) <> Connected /\
    mutations page' = (mutations page ++ [request])%list /\
    channel page' = channel page)).
Proof.
  intros Hl Hrun Hq. cbv zeta. unfold handleExecuteQuery.
  destruct (String.eqb_spec (String_trim (input page)) "") as [E|_];
    [contradiction|].
  destruct (run_managed l mount _ mount_managed Hl Hrun)
    as (closed & cur & Hso & _ & Hws & _ & Hopen).
  destruct (connectionStatus (channel page)) eqn:Hstatus; cbn;
    (split; [reflexivity|]);
    try (right; right; repeat split; congruence).
  assert (Hcur : sockets (channel page) !! List.length closed = Some cur).
  { rewrite Hso, lookup_app_r by lia. rewrite Nat.sub_diag. reflexivity. }
  assert (Hready : current_readyState (channel page)
                   = Some (readyState cur)).
  { unfold current_readyState. rewrite Hws. cbn. rewrite Hcur.
    reflexivity. }
  destruct (Hopen eq_refl) as [Hstate|Hstate]; rewrite Hstate in Hready.
  - left. split; [reflexivity|]. split; [exact Hready|].
    split; [reflexivity|].
    exists (List.length closed), cur. split; [exact Hws|].
    split; [exact Hcur|].
    unfold sendMessage. rewrite Hready, Hws. cbn.
    unfold socket_send. rewrite Hcur, Hstate. reflexivity.
  - right. left. split; [reflexivity|]. split; [exact Hready|].
    split; [reflexivity|].
    unfold sendMessage. rewrite Hready. reflexivity.
Qed.

Lemma question_routes_witness :
  exists s,
    run mount [Opened 0] = Some s /\
    let page := {| input := " top customers "; isExecuting := false;
                   hasProgress := false; hasResult := true; toasts := [];
                   mutations := []; channel := s |} in
    String_trim (input page) <> "" /\
    isExecuting (handleExecuteQuery page) = true /\
    mutations (handleExecuteQuery page) = [] /\
    current_readyState s = Some OPEN.
Proof.
  eexists. split; [vm_compute; reflexivity|]. cbv zeta.
  match goal with |- String_trim (input ?page) <> _ /\ _ =>
    assert (Hq : String_trim (input page) <> "")
      by (vm_compute; discriminate);
    assert (Hrun : run mount [Opened 0] = Some (channel page))
      by (vm_compute; reflexivity);
    split; [exact Hq|];
    destruct (question_routes [Opened 0] page eq_refl Hrun Hq)
      as (Hexec & [(_ & Hopen & Hm & _)|[(_ & Hclosing & _)|(Hstatus & _)]]);
    [split; [exact Hexec|split; [exact Hm|exact Hopen]]
    |vm_compute in Hclosing; discriminate
    |exfalso; apply Hstatus; reflexivity]
  end.
Defined.

(** X22.  In front of a stale status the question is lost: when the
    status is [Connected] while the socket of the channel is not open, a
    question that is not blank is neither transmitted nor handed to the
    HTTP request, and the page is left executing. *)
Theorem stale_status_loses_question (page : Page) :
  connectionStatus (channel page) = Connected ->
  current_readyState (channel page) <> Some OPEN ->
  String_trim (input page) <> "" ->
  let page' := handleExecuteQuery page in
  isExecuting page' = true /\
  mutations page' = mutations page /\
  sockets (channel page') = sockets (channel page) /\
  timers (channel page') = timers (channel page).
Proof.
  intros Hstatus Hclosed Hq. cbv zeta. unfold handleExecuteQuery.
  destruct (String.eqb_spec (String_trim (input page)) "") as [E|_];
    [contradiction|].
  rewrite Hstatus. cbn. unfold sendMessage.
  destruct (current_readyState (channel page)) as [[]|]; cbn;
    try contradiction; repeat split.
Qed.

Lemma stale_status_loses_question_witness :
  exists s,
    run mount stale_run = Some s /\
    let page := {| input := "top customers"; isExecuting := false;
                   hasProgress := false; hasResult := false; toasts := [];
                   mutations := []; channel := s |} in
    connectionStatus s = Connected /\
    mutations (handleExecuteQuery page) = [] /\
    sockets (channel (handleExecuteQuery page)) = sockets s.
Proof.
  eexists. split; [vm_compute; reflexivity|]. cbv zeta.
  split; [reflexivity|].
  match goal with |- mutations (handleExecuteQuery ?page) = _ /\ _ =>
    destruct (stale_status_loses_question page) as (_ & Hm & Hs & _);
      [reflexivity|vm_compute; discriminate|vm_compute; discriminate|];
    split; [exact Hm|exact Hs]
  end.
Defined.

(** ** [convertToCSV] *)

Lemma line_feeds_app (a b : string) :
  line_feeds (a ++ b) = (line_feeds a + line_feeds b)%nat.
Proof. induction a as [|c a IH]; cbn [append line_feeds]; lia. Qed.

Lemma line_feeds_substring (s : string) :
  line_feeds s = 0%nat ->
  forall n m, line_feeds (substring n m s) = 0%nat.
Proof.
  induction s as [|c s IH]; intros Hs n m.
  - destruct n, m; reflexivity.
  - cbn [line_feeds] in Hs.
    assert (Hs' : line_feeds s = 0%nat) by lia.
    destruct n as [|n]; destruct m as [|m]; cbn [substring line_feeds];
      rewrite ?IH by exact Hs'; try lia; apply IH; exact Hs'.
Qed.

Lemma line_feeds_uint (u : Decimal.uint) :
  line_feeds (NilEmpty.string_of_uint u) = 0%nat.
Proof. induction u; cbn; auto. Qed.

Lemma line_feeds_digits (z : Z) : line_feeds (digits_of z) = 0%nat.
Proof. apply line_feeds_uint. Qed.

Lemma line_feeds_zeros (n : nat) : line_feeds (zeros n) = 0%nat.
Proof. induction n; cbn; auto. Qed.

Lemma line_feeds_positive (a b : Z) :
  line_feeds (positive_to_string a b) = 0%nat.
Proof.
  unfold positive_to_string, prefix, suffix.
  repeat match goal with
         | |- context [let '(_, _) := ?p in _] => destruct p
         | |- context [if ?c then _ else _] => destruct c
         end;
    rewrite ?line_feeds_app, ?line_feeds_zeros, ?line_feeds_digits;
    rewrite ?line_feeds_substring by apply line_feeds_digits;
    reflexivity.
Qed.

Lemma line_feeds_quote (s : string) : line_feeds (quote_chars s) = 0%nat.
Proof.
  induction s as [|c s IH]; [reflexivity|].
  cbn [quote_chars]. rewrite line_feeds_app, IH.
  destruct c as [[] [] [] [] [] [] [] []]; reflexivity.
Qed.

Lemma line_feeds_cell (row : Row) (header : string) :
  line_feeds (cell row header) = 0%nat.
Proof.
  unfold cell, JSON_stringify.
  destruct (or_else _ _) as [| |[]|[| |q]|s]; try reflexivity.
  - unfold number_to_string.
    repeat match goal with
           | |- context [if ?c then _ else _] => destruct c
           end; cbn [append line_feeds]; rewrite ?line_feeds_positive;
      reflexivity.
  - unfold QuoteJSONString. cbn [line_feeds].
    rewrite line_feeds_app, line_feeds_quote. reflexivity.
Qed.

Lemma line_feeds_concat (sep : string) (l : list string) :
  line_feeds sep = 0%nat -> Forall (fun s => line_feeds s = 0%nat) l ->
  line_feeds (String.concat sep l) = 0%nat.
Proof.
  intros Hsep Hl. induction Hl as [|s l Hs Hl IH]; [reflexivity|].
  cbn [String.concat]. destruct l as [|s' l']; [exact Hs|].
  rewrite !line_feeds_app, Hs, Hsep, IH. reflexivity.
Qed.

Lemma line_feeds_lines (l : list string) (first : string) :
  line_feeds first = 0%nat -> Forall (fun s => line_feeds s = 0%nat) l ->
  line_feeds (String.concat newline (first :: l)) = List.length l.
Proof.
  intros Hfirst Hl. revert first Hfirst.
  induction Hl as [|s l Hs Hl IH]; intros first Hfirst.
  - cbn. exact Hfirst.
  - change (String.concat newline (first :: s :: l))
      with (first ++ newline ++ String.concat newline (s :: l)).
    rewrite !line_feeds_app, Hfirst, (IH s Hs). reflexivity.
Qed.

(** X23.  The text copied has one line for the headers and one line per
    row, whatever the rows hold: a line feed inside a value is written
    as an escape, so when no column name contains a line feed the text
    has exactly as many line feeds as there are rows. *)
Theorem csv_one_line_per_row (firstRow : Row) (rest : list Row) :
  Forall (fun header => line_feeds header = 0%nat) (keys firstRow) ->
  line_feeds (convertToCSV (firstRow :: rest)) = S (List.length rest).
Proof.
  intros Hheaders. unfold convertToCSV.
  rewrite line_feeds_lines.
  - rewrite length_map. reflexivity.
  - apply line_feeds_concat; [reflexivity|exact Hheaders].
  - apply List.Forall_forall. intros line Hin.
    apply in_map_iff in Hin as (row & <- & _).
    apply line_feeds_concat; [reflexivity|].
    apply List.Forall_forall. intros text Hin.
    apply in_map_iff in Hin as (header & <- & _). apply line_feeds_cell.
Qed.

Lemma csv_one_line_per_row_witness :
  line_feeds (convertToCSV payroll) = 3%nat.
Proof.
  apply (csv_one_line_per_row (hd [] payroll) (tl payroll)).
  repeat constructor.
Defined.

Lemma falsy_cell (row : Row) (header : string) :
  truthy (prop row header) = false -> cell row header = QuoteJSONString "".
Proof. intros Hfalsy. unfold cell, or_else. rewrite Hfalsy. reflexivity. Qed.

(** X24.  A value that is missing, null, false, zero, NaN or the empty
    text is copied as the empty text in quotes, so the text copied cannot
    tell a zero from a missing value: two result sets with the same
    columns whose rows agree except where both values are falsy are
    copied as the same text. *)
Theorem csv_blanks_falsy_values (data data' : list Row) :
  option_map keys (head data) = option_map keys (head data') ->
  Forall2 (fun row row' => forall header,
             prop row header = prop row' header \/
             (truthy (prop row header) = false /\
              truthy (prop row' header) = false)) data data' ->
  convertToCSV data = convertToCSV data'.
Proof.
  intros Hkeys Hrows.
  destruct Hrows as [|firstRow firstRow' rest rest' Hfirst Hrest];
    [reflexivity|].
  cbn in Hkeys. injection Hkeys as Hkeys.
  unfold convertToCSV. rewrite <- Hkeys. do 2 f_equal.
  assert (Hall : Forall2 (fun row row' => forall header,
                   cell row header = cell row' header)
                   (firstRow :: rest) (firstRow' :: rest')).
  { constructor.
    - intros header. destruct (Hfirst header) as [E|[E1 E2]].
      + unfold cell. rewrite E. reflexivity.
      + rewrite !falsy_cell by assumption. reflexivity.
    - eapply Forall2_impl; [exact Hrest|]. cbn.
      intros row row' H header. destruct (H header) as [E|[E1 E2]].
      + unfold cell. rewrite E. reflexivity.
      + rewrite !falsy_cell by assumption. reflexivity. }
  induction Hall as [|row row' l l' Hrow Hl IH]; [reflexivity|].
  cbn [map]. f_equal; [|exact IH].
  f_equal. apply map_ext. exact Hrow.
Qed.

Lemma csv_blanks_falsy_values_witness :
  convertToCSV [[("qty", int 0)]] = convertToCSV [[("qty", VNull)]].
Proof.
  apply csv_blanks_falsy_values; [reflexivity|].
  constructor; [|constructor].
  intros header. destruct (String.eqb "qty" header) eqn:E.
  - right. unfold prop. cbn [get]. rewrite E. split; reflexivity.
  - left. unfold prop. cbn [get]. rewrite E. reflexivity.
Defined.
